(** * ModifyPDF: the annotation store, the layer manager, the history
      (undo/redo) engine and the canvas projection of the PDF editor.

    The development embeds three React components of the front end,

    - [PDFEditor.jsx]   (annotation store, history, page and zoom state),
    - [LayerManager.jsx] (grouping by layer, move, delete, visibility),
    - [PDFViewer.jsx]   (canvas projection and the pointer gestures),

    together with the two callers of the store found in [ToolPanel] and
    [SignatureLibrary].

    Conventions of the embedding.

    - A handler is a function from the state its closure captured to the
      state React renders next.  Handlers run to completion between two
      events, so the value a functional updater receives ([prev]) is the
      value the closure captured.  The exception is the [onload] callback
      that [handleImageUpload] hands to its [FileReader]: it runs when the
      file has been read, through the closure of the render in which the
      file was picked, on a state that may have moved on;
      [handleAddAnnotationVia] is [handleAddAnnotation] called that way.
    - JavaScript objects that are shared are kept in a store ([heap]) and
      arrays hold references into it: [handleMoveLayer] writes the [layer]
      field of objects that history snapshots also reference.  Arrays are
      never written after they are built (spread, [slice], [filter] and a
      [push] on the fresh copy), so an array is the list of its elements.
    - A handler that can install [undefined] as the annotation set returns
      an [option]; [None] stands for the render that then throws.
    - JavaScript numbers that hold geometry are rationals ([Q]); counters,
      ids, pages and layers are integers ([Z]).  The code computes the
      geometry in doubles: the statements use it through the expressions
      the code evaluates and through comparisons of their values, and none
      rests on an identity of exact arithmetic.  A field an object may
      lack is an [option]; [None] is JavaScript's [undefined].
    - The projection is the list of the canvas operations a pass issues,
      in call order.  The image of a signature is painted when it has
      loaded, after the pass; [paints] relates the operations issued to
      what ends up painted.
    - [Date.now()] and [prompt()] are inputs of the handler that calls them.
    - Toasts are not modelled: they do not feed back into the state. *)

From Stdlib Require Import ZArith QArith Qminmax Qabs Lia Lqa Ascii.
From stdpp Require Import base option list strings pretty sorting gmap.

Open Scope Z_scope.

(** ** JavaScript helpers *)

(** [a || d] on a number: [undefined] and [0] are falsy. *)
Definition js_or_Z (a : option Z) (d : Z) : Z :=
  match a with
  | Some v => if decide (v = 0) then d else v
  | None => d
  end.

(** [a || d] on a rational number. *)
Definition js_or_Q (a : option Q) (d : Q) : Q :=
  match a with
  | Some v => if Qeq_bool v 0 then d else v
  | None => d
  end.

(** [a || d] on a string: [undefined] and the empty string are falsy. *)
Definition js_or_string (a : option string) (d : string) : string :=
  match a with
  | Some v => if decide (v = "") then d else v
  | None => d
  end.

(** [a > b] where [a] may be [undefined]: the comparison is then false. *)
Definition js_gt (a : option Q) (b : Q) : bool :=
  match a with
  | Some v => negb (Qle_bool v b)
  | None => false
  end.

(** [arr[i]]: [undefined] when [i] is negative or past the end. *)
Definition js_index {A} (arr : list A) (i : Z) : option A :=
  if decide (i < 0) then None else arr !! Z.to_nat i.

(** [arr.slice(0, e)]: a negative [e] counts from the end of the array. *)
Definition js_slice0 {A} (arr : list A) (e : Z) : list A :=
  if decide (e < 0)
  then take (Z.to_nat (Z.of_nat (length arr) + e)) arr
  else take (Z.to_nat e) arr.

(** ** Data model *)

(** What a caller hands to [onAddAnnotation] / [onAddSignature]: the
    object literals built in [PDFViewer], [ToolPanel] and
    [SignatureLibrary].  None of them has an [id], [page] or [layer]
    property. *)
Record Draft := mkDraft {
  d_type : string;
  d_x : Q;
  d_y : Q;
  d_width : option Q;
  d_height : option Q;
  d_color : option string;
  d_text : option string;
  d_fontSize : option Q;
  d_imageData : option string
}.

(** An annotation object of the store. *)
Record Annotation := mkAnnotation {
  ann_type : string;
  ann_x : Q;
  ann_y : Q;
  ann_width : option Q;
  ann_height : option Q;
  ann_color : option string;
  ann_text : option string;
  ann_fontSize : option Q;
  ann_imageData : option string;
  ann_id : Z;
  ann_page : Z;
  ann_layer : option Z
}.

(** [{...draft, id, page, layer}] *)
Definition spread (d : Draft) (id page : Z) (layer : option Z)
  : Annotation :=
  {| ann_type := d_type d; ann_x := d_x d; ann_y := d_y d;
     ann_width := d_width d; ann_height := d_height d;
     ann_color := d_color d; ann_text := d_text d;
     ann_fontSize := d_fontSize d; ann_imageData := d_imageData d;
     ann_id := id; ann_page := page; ann_layer := layer |}.

(** [annotation.layer = l] *)
Definition set_layer (l : option Z) (a : Annotation) : Annotation :=
  {| ann_type := ann_type a; ann_x := ann_x a; ann_y := ann_y a;
     ann_width := ann_width a; ann_height := ann_height a;
     ann_color := ann_color a; ann_text := ann_text a;
     ann_fontSize := ann_fontSize a; ann_imageData := ann_imageData a;
     ann_id := ann_id a; ann_page := ann_page a; ann_layer := l |}.

(** A reference to an annotation object. *)
Abbreviation Ref := nat.

(** An entry of the [layers] state (the shape of [mockLayers]). *)
Record Layer := mkLayer {
  layer_id : Z;
  layer_name : string;
  layer_visible : bool;
  layer_annotations : list Z
}.

(** The file picked in the upload input. *)
Record File := mkFile { file_size : Z; file_type : string }.

(** State of [PDFEditor] ([useState] cells) and the object store.  The
    cells that hold the file, its object URL, the signature library and the
    dialog flag are left out: no handler below reads them. *)
Record Editor := mkEditor {
  heap : list Annotation;
  currentPage : Z;
  totalPages : Z;
  zoomLevel : Q;
  selectedTool : string;
  annotations : list Ref;
  layers : list Layer;
  history : list (list Ref);
  historyIndex : Z
}.

Definition setHeap (h : list Annotation) (e : Editor) : Editor :=
  mkEditor h (currentPage e) (totalPages e) (zoomLevel e) (selectedTool e)
           (annotations e) (layers e) (history e) (historyIndex e).
Definition setCurrentPage (p : Z) (e : Editor) : Editor :=
  mkEditor (heap e) p (totalPages e) (zoomLevel e) (selectedTool e)
           (annotations e) (layers e) (history e) (historyIndex e).
Definition setZoomLevel (z : Q) (e : Editor) : Editor :=
  mkEditor (heap e) (currentPage e) (totalPages e) z (selectedTool e)
           (annotations e) (layers e) (history e) (historyIndex e).
Definition setSelectedTool (t : string) (e : Editor) : Editor :=
  mkEditor (heap e) (currentPage e) (totalPages e) (zoomLevel e) t
           (annotations e) (layers e) (history e) (historyIndex e).
Definition setAnnotations (a : list Ref) (e : Editor) : Editor :=
  mkEditor (heap e) (currentPage e) (totalPages e) (zoomLevel e)
           (selectedTool e) a (layers e) (history e) (historyIndex e).
Definition setLayers (l : list Layer) (e : Editor) : Editor :=
  mkEditor (heap e) (currentPage e) (totalPages e) (zoomLevel e)
           (selectedTool e) (annotations e) l (history e) (historyIndex e).
Definition setHistory (h : list (list Ref)) (e : Editor) : Editor :=
  mkEditor (heap e) (currentPage e) (totalPages e) (zoomLevel e)
           (selectedTool e) (annotations e) (layers e) h (historyIndex e).
Definition setHistoryIndex (i : Z) (e : Editor) : Editor :=
  mkEditor (heap e) (currentPage e) (totalPages e) (zoomLevel e)
           (selectedTool e) (annotations e) (layers e) (history e) i.

(** The [useState] initial values. *)
Definition initialEditor : Editor :=
  {| heap := []; currentPage := 1; totalPages := 3; zoomLevel := 1%Q;
     selectedTool := "select"; annotations := []; layers := [];
     history := []; historyIndex := -1 |}.

(** [new Object]: the object is stored and its reference returned. *)
Definition alloc (a : Annotation) (e : Editor) : Ref * Editor :=
  (length (heap e), setHeap (heap e ++ [a]) e).

(** ** PDFEditor.jsx *)

(** [file] is [event.target.files[0]].  A file that passes both checks
    resets the page, the store, the layers and the history. *)
Definition handleFileUpload (file : option File) (e : Editor) : Editor :=
  match file with
  | None => e
  | Some f =>
      if decide (file_size f > 100 * 1024 * 1024) then e
      else if decide (file_type f ≠ "application/pdf") then e
      else setHistoryIndex (-1)
             (setHistory [] (setLayers [] (setAnnotations []
               (setCurrentPage 1 e))))
  end.

Definition handleZoomIn (e : Editor) : Editor :=
  setZoomLevel (Qmin (zoomLevel e + 0.25) 3)%Q e.

Definition handleZoomOut (e : Editor) : Editor :=
  setZoomLevel (Qmax (zoomLevel e - 0.25) 0.5)%Q e.

Definition handlePageChange (direction : string) (e : Editor) : Editor :=
  if decide (direction = "next" ∧ currentPage e < totalPages e)
  then setCurrentPage (currentPage e + 1) e
  else if decide (direction = "prev" ∧ currentPage e > 1)
  then setCurrentPage (currentPage e - 1) e
  else e.

Definition handleToolSelect (tool : string) (e : Editor) : Editor :=
  setSelectedTool tool e.

(** [slice(0, historyIndex + 1)], [push], then the cursor goes to the
    last index. *)
Definition addToHistory (newAnnotations : list Ref) (e : Editor) : Editor :=
  let newHistory :=
    js_slice0 (history e) (historyIndex e + 1) ++ [newAnnotations] in
  setHistoryIndex (Z.of_nat (length newHistory) - 1) (setHistory newHistory e).

(** [now] is the value of [Date.now()].  The new object is appended to
    the annotation set, and an array with the same elements is pushed. *)
Definition handleAddAnnotation (now : Z) (annotation : Draft) (e : Editor)
  : Editor :=
  let newAnnotation :=
    spread annotation now (currentPage e)
           (Some (Z.of_nat (length (layers e)))) in
  let '(r, e1) := alloc newAnnotation e in
  addToHistory (annotations e ++ [r])
               (setAnnotations (annotations e ++ [r]) e1).

(** As [handleAddAnnotation], but the object literal has no [layer]. *)
Definition handleAddSignature (now : Z) (signature : Draft) (e : Editor)
  : Editor :=
  let newSignature :=
    spread signature now (currentPage e) None in
  let '(r, e1) := alloc newSignature e in
  addToHistory (annotations e ++ [r])
               (setAnnotations (annotations e ++ [r]) e1).

(** [None]: the snapshot read is [undefined]; installed as the
    annotation set it makes the next render throw ([annotations.filter]). *)
Definition handleUndo (e : Editor) : option Editor :=
  if decide (historyIndex e > 0) then
    snapshot ← js_index (history e) (historyIndex e - 1);
    Some (setAnnotations snapshot (setHistoryIndex (historyIndex e - 1) e))
  else Some e.

(** [None]: as for [handleUndo]. *)
Definition handleRedo (e : Editor) : option Editor :=
  if decide (historyIndex e < Z.of_nat (length (history e)) - 1) then
    snapshot ← js_index (history e) (historyIndex e + 1);
    Some (setAnnotations snapshot (setHistoryIndex (historyIndex e + 1) e))
  else Some e.

(** The [disabled] attributes of the undo and redo buttons. *)
Definition undoDisabled (e : Editor) : bool :=
  bool_decide (historyIndex e <= 0).
Definition redoDisabled (e : Editor) : bool :=
  bool_decide (historyIndex e >= Z.of_nat (length (history e)) - 1).

(** ** LayerManager.jsx *)

(** [annotation.layer] read through a reference. *)
Definition layer_of (h : list Annotation) (r : Ref) : option Z :=
  h !! r ≫= ann_layer.

(** The [reduce] that groups the annotations under [annotation.layer || 0]. *)
Definition groupedAnnotations (h : list Annotation) (anns : list Ref)
  : gmap Z (list Ref) :=
  foldl (λ acc r,
           let layer := js_or_Z (layer_of h r) 0 in
           <[layer := default [] (acc !! layer) ++ [r]]> acc)
        ∅ anns.

(** An entry of [layerList]. *)
Record LayerEntry := mkLayerEntry {
  index : Z;
  entry_annotations : list Ref;
  visible : bool
}.

(** One entry per key of [groupedAnnotations]; [visible] is the constant
    [true].  Only the length of this list and the keys in it are used by the
    handlers (the listing itself is sorted by descending index for display). *)
Definition layerList (h : list Annotation) (anns : list Ref)
  : list LayerEntry :=
  (λ kv, mkLayerEntry kv.1 kv.2 true)
    <$> map_to_list (groupedAnnotations h anns).

(** The body of the [forEach] of [handleMoveLayer] for one annotation.
    Every direction other than ['up'] moves down.  (On an object without
    [layer] the sum would be NaN; the [filter] never selects one.) *)
Definition moveOne (direction : string) (n : Z) (a : Annotation)
  : Annotation :=
  if decide (direction = "up")
  then set_layer ((λ l, Z.min (l + 1) n) <$> ann_layer a) a
  else set_layer ((λ l, Z.max (l - 1) 0) <$> ann_layer a) a.

(** [layerAnnotations.forEach(...)]: the objects are written in place, one
    after the other. *)
Definition forEachMove (direction : string) (n : Z)
  (layerAnnotations : list Ref) (h : list Annotation) : list Annotation :=
  foldl (λ h r, alter (moveOne direction n) r h) h layerAnnotations.

(** [currentAnnotations] is a fresh array holding the same objects. *)
Definition handleMoveLayer (layerIndex : Z) (direction : string)
  (e : Editor) : Editor :=
  let currentAnnotations := annotations e in
  let layerAnnotations :=
    filter (λ r, layer_of (heap e) r = Some layerIndex) currentAnnotations in
  let n := Z.of_nat (length (layerList (heap e) (annotations e))) in
  let h' := forEachMove direction n layerAnnotations (heap e) in
  setAnnotations currentAnnotations (setHeap h' e).

(** The [filter] builds the new annotation set, handed to
    [onAnnotationsChange], which is [setAnnotations]. *)
Definition handleDeleteLayer (layerIndex : Z) (e : Editor) : Editor :=
  let updatedAnnotations :=
    filter (λ r, layer_of (heap e) r ≠ Some layerIndex) (annotations e) in
  setAnnotations updatedAnnotations e.

(** Shows a toast and nothing else. *)
Definition handleToggleVisibility (layerIndex : Z) (e : Editor) : Editor := e.

(** The [disabled] attributes of the move buttons of a listed layer. *)
Definition moveUpDisabled (e : Editor) (layerIndex : Z) : bool :=
  bool_decide
    (layerIndex >= Z.of_nat (length (layerList (heap e) (annotations e))) - 1).
Definition moveDownDisabled (layerIndex : Z) : bool :=
  bool_decide (layerIndex <= 0).

(** ** PDFViewer.jsx: projection *)

(** The canvas calls one annotation is drawn with.  A coordinate is [None]
    when it was computed from an [undefined] field (NaN). *)
Inductive Primitive :=
| FillText (fillStyle : string) (fontPx : Q) (str : string) (px py : Q)
| StrokeRect (strokeStyle : string) (lineWidth : Q) (px py : Q)
             (w h : option Q)
| Arc (strokeStyle : string) (lineWidth : Q) (cx cy radius : option Q)
| FillRect (fillStyle : string) (px py : Q) (w h : option Q)
| Arrow (strokeStyle : string) (lineWidth : Q) (fromX fromY : Q)
        (toX toY : option Q)
| ImageOnLoad (src : string) (px py : Q) (w h : option Q).

(** [a op b] on numbers one of which may be [undefined]. *)
Definition lift2 (op : Q → Q → Q) (a b : option Q) : option Q :=
  x ← a; y ← b; Some (op x y).

(** [drawAnnotation(ctx, annotation)]: the [switch] on [type]; other
    types draw nothing.  [Arrow] stands for the call of [drawArrow], and
    [ImageOnLoad] for the [drawImage] deferred to the image's [onload]. *)
Definition drawAnnotation (zoom : Q) (a : Annotation) : list Primitive :=
  let sx := (ann_x a * zoom)%Q in
  let sy := (ann_y a * zoom)%Q in
  let sw := (λ w, w * zoom)%Q <$> ann_width a in
  let sh := (λ w, w * zoom)%Q <$> ann_height a in
  let t := ann_type a in
  if decide (t = "text") then
    [FillText (js_or_string (ann_color a) "#000")
              (js_or_Q (ann_fontSize a) 14 * zoom)%Q
              (js_or_string (ann_text a) "Text") sx sy]
  else if decide (t = "rectangle") then
    [StrokeRect (js_or_string (ann_color a) "#000") (2 * zoom)%Q sx sy sw sh]
  else if decide (t = "circle") then
    [Arc (js_or_string (ann_color a) "#000") (2 * zoom)%Q
         ((λ w, (ann_x a + w / 2) * zoom)%Q <$> ann_width a)
         ((λ w, (ann_y a + w / 2) * zoom)%Q <$> ann_height a)
         (lift2 (λ w h, (Qmin w h / 2) * zoom)%Q (ann_width a) (ann_height a))]
  else if decide (t = "highlight") then
    [FillRect (js_or_string (ann_color a) "rgba(255, 255, 0, 0.3)")
              sx sy sw sh]
  else if decide (t = "arrow") then
    [Arrow (js_or_string (ann_color a) "#000") (2 * zoom)%Q sx sy
           ((λ w, (ann_x a + w) * zoom)%Q <$> ann_width a)
           ((λ w, (ann_y a + w) * zoom)%Q <$> ann_height a)]
  else if decide (t = "signature") then
    match ann_imageData a with
    | Some src => if decide (src = "") then [] else [ImageOnLoad src sx sy sw sh]
    | None => []
    end
  else [].

(** The annotations [drawAnnotations] hands to [drawAnnotation], in the
    order of the calls: the [filter] on the page. *)
Definition pageAnnotations (currentPage : Z) (anns : list Annotation)
  : list Annotation :=
  filter (λ a, ann_page a = currentPage) anns.

(** [drawAnnotations(ctx)] as a function of the component's props. *)
Definition drawAnnotations (currentPage : Z) (zoom : Q)
  (anns : list Annotation) : list Primitive :=
  pageAnnotations currentPage anns ≫= drawAnnotation zoom.

(** The [annotations] prop: the array with its references followed. *)
Definition annotationsProp (e : Editor) : list Annotation :=
  omap (λ r, heap e !! r) (annotations e).

(** One projection pass of the viewer mounted by the editor. *)
Definition project (e : Editor) : list Primitive :=
  drawAnnotations (currentPage e) (zoomLevel e) (annotationsProp e).

(** ** PDFViewer.jsx: pointer gestures *)

Record Point := mkPoint { pt_x : Q; pt_y : Q }.

(** What the handlers read of a mouse event and of the canvas rectangle. *)
Record MouseEvent := mkMouseEvent {
  clientX : Q; clientY : Q;
  rect_left : Q; rect_top : Q
}.

(** State of [PDFViewer]. *)
Record Viewer := mkViewer {
  isDrawing : bool;
  startPoint : option Point;
  currentAnnotation : option Draft
}.

Definition initialViewer : Viewer :=
  {| isDrawing := false; startPoint := None; currentAnnotation := None |}.

(** The reset that ends [handleMouseUp]. *)
Definition idleViewer : Viewer :=
  {| isDrawing := false; startPoint := None; currentAnnotation := None |}.

Definition getCanvasCoordinates (zoom : Q) (event : MouseEvent) : Point :=
  {| pt_x := ((clientX event - rect_left event) / zoom)%Q;
     pt_y := ((clientY event - rect_top event) / zoom)%Q |}.

(** The object literal of the text tool. *)
Definition textDraft (point : Point) (str : string) : Draft :=
  {| d_type := "text"; d_x := pt_x point; d_y := pt_y point;
     d_width := None; d_height := None; d_color := Some "#000";
     d_text := Some str; d_fontSize := Some 14%Q; d_imageData := None |}.

(** [promptResult] is what [prompt('Enter text:')] returns ([None] for
    [null]) and [now] what [Date.now()] returns, should they be called. *)
Definition handleMouseDown (event : MouseEvent) (promptResult : option string)
  (now : Z) (s : Viewer * Editor) : Viewer * Editor :=
  let '(v, e) := s in
  if decide (selectedTool e = "select") then (v, e)
  else
    let point := getCanvasCoordinates (zoomLevel e) event in
    if decide (selectedTool e = "text") then
      let e' :=
        match promptResult with
        | Some str =>
            if decide (str = "") then e
            else handleAddAnnotation now (textDraft point str) e
        | None => e
        end in
      (mkViewer false (Some point) (currentAnnotation v), e')
    else (mkViewer true (Some point) (currentAnnotation v), e).

(** The object literal of the drag preview. *)
Definition dragDraft (tool : string) (start point : Point) : Draft :=
  {| d_type := tool;
     d_x := Qmin (pt_x start) (pt_x point);
     d_y := Qmin (pt_y start) (pt_y point);
     d_width := Some (Qabs (pt_x point - pt_x start));
     d_height := Some (Qabs (pt_y point - pt_y start));
     d_color := Some (if decide (tool = "highlight")
                      then "rgba(255, 255, 0, 0.3)" else "#000");
     d_text := None; d_fontSize := None; d_imageData := None |}.

Definition handleMouseMove (event : MouseEvent) (s : Viewer * Editor)
  : Viewer * Editor :=
  let '(v, e) := s in
  match isDrawing v, startPoint v with
  | true, Some start =>
      let point := getCanvasCoordinates (zoomLevel e) event in
      if bool_decide
           (selectedTool e ∈ ["rectangle"; "circle"; "highlight"; "arrow"])
      then (mkViewer (isDrawing v) (startPoint v)
                     (Some (dragDraft (selectedTool e) start point)), e)
      else (v, e)
  | _, _ => (v, e)
  end.

(** Also the handler of [onMouseLeave]. *)
Definition handleMouseUp (now : Z) (s : Viewer * Editor) : Viewer * Editor :=
  let '(v, e) := s in
  match isDrawing v, currentAnnotation v with
  | true, Some draft =>
      if js_gt (d_width draft) 5 && js_gt (d_height draft) 5
      then (idleViewer, handleAddAnnotation now draft e)
      else (idleViewer, e)
  | _, _ => (idleViewer, e)
  end.

(** ** ToolPanel and SignatureLibrary: the other callers of the store *)

(** [handleImageUpload]: the literal handed to [onAddAnnotation] once the
    file is read ([imageData] is the data URL). *)
Definition imageDraft (imageData : string) : Draft :=
  {| d_type := "image"; d_x := 100; d_y := 100;
     d_width := Some 200%Q; d_height := Some 150%Q; d_color := None;
     d_text := None; d_fontSize := None; d_imageData := Some imageData |}.

(** [handleUseSignature]: the literal handed to [onAddSignature]. *)
Definition signatureDraft (imageData : option string) : Draft :=
  {| d_type := "signature"; d_x := 100; d_y := 100;
     d_width := Some 200%Q; d_height := Some 100%Q; d_color := None;
     d_text := None; d_fontSize := None; d_imageData := imageData |}.

(** ** Sessions *)

(** What can happen to the mounted editor: one constructor per handler
    wired to a control, with the inputs the handler reads.  [step] serves
    an event whether or not its control is enabled; [controlEnabled] below
    is the condition under which the rendered page can raise it.
    [ImageUpload] is an image that is picked and read before the next
    event, so that its [onload] callback runs on the state it captured. *)
Inductive Event :=
| FileUpload (file : option File)
| ZoomIn
| ZoomOut
| PageChange (direction : string)
| ToolSelect (tool : string)
| MouseDown (event : MouseEvent) (promptResult : option string) (now : Z)
| MouseMove (event : MouseEvent)
| MouseUp (now : Z)
| ImageUpload (imageData : string) (now : Z)
| UseSignature (imageData : option string) (now : Z)
| Undo
| Redo
| MoveLayer (layerIndex : Z) (direction : string)
| DeleteLayer (layerIndex : Z)
| ToggleVisibility (layerIndex : Z).

(** Lifts an editor handler to the session. *)
Definition onEditor (f : Editor → Editor) (s : Viewer * Editor)
  : option (Viewer * Editor) :=
  Some (s.1, f s.2).

Definition step (ev : Event) (s : Viewer * Editor)
  : option (Viewer * Editor) :=
  match ev with
  | FileUpload file => onEditor (handleFileUpload file) s
  | ZoomIn => onEditor handleZoomIn s
  | ZoomOut => onEditor handleZoomOut s
  | PageChange direction => onEditor (handlePageChange direction) s
  | ToolSelect tool => onEditor (handleToolSelect tool) s
  | MouseDown event promptResult now =>
      Some (handleMouseDown event promptResult now s)
  | MouseMove event => Some (handleMouseMove event s)
  | MouseUp now => Some (handleMouseUp now s)
  | ImageUpload imageData now =>
      onEditor (handleAddAnnotation now (imageDraft imageData)) s
  | UseSignature imageData now =>
      onEditor (handleAddSignature now (signatureDraft imageData)) s
  | Undo => e' ← handleUndo s.2; Some (s.1, e')
  | Redo => e' ← handleRedo s.2; Some (s.1, e')
  | MoveLayer layerIndex direction =>
      onEditor (handleMoveLayer layerIndex direction) s
  | DeleteLayer layerIndex => onEditor (handleDeleteLayer layerIndex) s
  | ToggleVisibility layerIndex =>
      onEditor (handleToggleVisibility layerIndex) s
  end.

(** A session: the events in order, from a given state. *)
Fixpoint run (evs : list Event) (s : Viewer * Editor)
  : option (Viewer * Editor) :=
  match evs with
  | [] => Some s
  | ev :: evs' => s' ← step ev s; run evs' s'
  end.

Definition initialSession : Viewer * Editor := (initialViewer, initialEditor).

(** The clock readings ([Date.now()]) of the commits an event performs. *)
Definition commitTime (s : Viewer * Editor) (ev : Event) : list Z :=
  match ev with
  | MouseDown event promptResult now =>
      if decide (selectedTool s.2 = "text") then
        match promptResult with
        | Some str => if decide (str = "") then [] else [now]
        | None => []
        end
      else []
  | MouseUp now =>
      match isDrawing s.1, currentAnnotation s.1 with
      | true, Some draft =>
          if js_gt (d_width draft) 5 && js_gt (d_height draft) 5
          then [now] else []
      | _, _ => []
      end
  | ImageUpload _ now => [now]
  | UseSignature _ now => [now]
  | _ => []
  end.

(** The clock readings of all the commits of a session, oldest first. *)
Fixpoint commitTimes (evs : list Event) (s : Viewer * Editor) : list Z :=
  match evs with
  | [] => []
  | ev :: evs' =>
      commitTime s ev ++
      match step ev s with
      | Some s' => commitTimes evs' s'
      | None => []
      end
  end.

(** ** The controls *)

(** The buttons of the tool panel. *)
Definition toolButtons : list string :=
  ["select"; "text"; "highlight"; "rectangle"; "circle"; "arrow"; "image";
   "freehand"].

(** Whether the control that raises the event is rendered and not
    [disabled] in the state shown.  The image button opens the file
    picker instead of selecting a tool; the layer controls exist for the
    listed layers only. *)
Definition controlEnabled (ev : Event) (s : Viewer * Editor) : Prop :=
  let e := s.2 in
  let listed k := k ∈ index <$> layerList (heap e) (annotations e) in
  match ev with
  | ZoomIn => ¬ (3 <= zoomLevel e)%Q
  | ZoomOut => ¬ (zoomLevel e <= 0.5)%Q
  | PageChange direction =>
      (direction = "prev" ∧ currentPage e ≠ 1)
      ∨ (direction = "next" ∧ currentPage e ≠ totalPages e)
  | ToolSelect tool => tool ∈ toolButtons ∧ tool ≠ "image"
  | Undo => undoDisabled e = false
  | Redo => redoDisabled e = false
  | MoveLayer k direction =>
      listed k
      ∧ ((direction = "up" ∧ moveUpDisabled e k = false)
         ∨ (direction = "down" ∧ moveDownDisabled k = false))
  | DeleteLayer k => listed k
  | ToggleVisibility k => listed k
  | _ => True
  end.

(** A session every event of which comes from an enabled control. *)
Fixpoint guarded (evs : list Event) (s : Viewer * Editor) : Prop :=
  match evs with
  | [] => True
  | ev :: evs' =>
      controlEnabled ev s
      ∧ match step ev s with
        | Some s' => guarded evs' s'
        | None => False
        end
  end.

(** ** LayerManager.jsx: the title of a listed layer *)




(** ** ToolPanel: image upload *)

(** The image file picked: what the upload handlers read of it. *)
Record ImageFile := mkImageFile { img_name : string; img_type : string }.

Definition validTypes : list string :=
  ["image/png"; "image/jpeg"; "image/svg+xml"; "image/gif"].

(** [handleAddAnnotation] as it runs when a callback registered during an
    earlier render calls it: [c] is the state that render showed, [e] the
    state at the time of the call.  The updater handed to [setAnnotations]
    receives the live annotation set; the page, the layer and the arguments
    of [addToHistory], [setHistory] and [setHistoryIndex] are computed from
    the captured values. *)
Definition handleAddAnnotationVia (c : Editor) (now : Z) (annotation : Draft)
  (e : Editor) : Editor :=
  let newAnnotation :=
    spread annotation now (currentPage c)
           (Some (Z.of_nat (length (layers c)))) in
  let '(r, e1) := alloc newAnnotation e in
  let newHistory :=
    js_slice0 (history c) (historyIndex c + 1) ++ [annotations c ++ [r]] in
  setHistoryIndex (Z.of_nat (length newHistory) - 1)
    (setHistory newHistory (setAnnotations (annotations e ++ [r]) e1)).

(** [handleImageUpload], called during the render that shows [c].  Without
    a file, or with a file of another type, no read is started.  Otherwise
    the result is the [onload] callback handed to the reader: it runs when
    the file has been read, with the data URL [result]
    ([e.target.result]), at a state that need not be [c] any more. *)
Definition handleImageUpload (file : option ImageFile) (c : Editor)
  : option (string → Z → Editor → Editor) :=
  match file with
  | None => None
  | Some f =>
      if bool_decide (img_type f ∈ validTypes)
      then Some (λ result now e,
                   handleAddAnnotationVia c now (imageDraft result) e)
      else None
  end.

(** An entry of the signature library. *)
Record Signature := mkSignature {
  sig_id : Z;
  sig_name : string;
  sig_imageData : string;
  sig_dateAdded : string
}.

(** The character class [[^/.]] of the extension pattern. *)
Definition extChar (c : Ascii.ascii) : bool :=
  negb (Ascii.eqb c "/"%char) && negb (Ascii.eqb c "."%char).

(** [[^/.]*$]: every character up to the end is in the class. *)
Fixpoint allExt (s : string) : bool :=
  match s with
  | EmptyString => true
  | String c s' => extChar c && allExt s'
  end.

(** [name.replace(/\.[^/.]+$/, "")]: the leftmost dot followed, up to the
    end, by one or more characters other than a dot and a slash is where the
    name is cut.  (Strings are byte strings here; the two characters the
    pattern tells apart are ASCII.) *)
Fixpoint stripExtension (name : string) : string :=
  match name with
  | EmptyString => EmptyString
  | String c rest =>
      if Ascii.eqb c "."%char && negb (String.eqb rest "") && allExt rest
      then EmptyString
      else String c (stripExtension rest)
  end.

(** [handleSignatureUpload]: the array handed to [onSignaturesChange] (and
    written to [localStorage], which is not modelled).  [result] is the
    data URL read, [now] is [Date.now()] and [iso] is
    [new Date().toISOString()]. *)
Definition handleSignatureUpload (file : option ImageFile) (result : string)
  (now : Z) (iso : string) (signatures : list Signature) : list Signature :=
  match file with
  | None => signatures
  | Some f =>
      if bool_decide (img_type f ∈ validTypes)
      then signatures
             ++ [{| sig_id := now; sig_name := stripExtension (img_name f);
                    sig_imageData := result; sig_dateAdded := iso |}]
      else signatures
  end.

Definition handleDeleteSignature (signatureId : Z)
  (signatures : list Signature) : list Signature :=
  filter (λ sig, sig_id sig ≠ signatureId) signatures.

(** [handleUseSignature]: the library entry's image is handed to
    [onAddSignature]. *)
Definition handleUseSignature (signature : Signature) (now : Z) (e : Editor)
  : Editor :=
  handleAddSignature now (signatureDraft (Some (sig_imageData signature))) e.

(** * Vocabulary of the properties *)

(** ** The store *)

(** The store side of a commit: the new object is allocated, appended to
    the annotation set, and the new set is pushed on the history. *)
Definition commitObject (a : Annotation) (e : Editor) : Editor :=
  addToHistory (annotations e ++ [length (heap e)])
    (setAnnotations (annotations e ++ [length (heap e)])
       (setHeap (heap e ++ [a]) e)).

(** The editor transitions an event other than a layer operation can
    take, with the clock readings of the commits made. *)
Inductive editorMove (e : Editor) : list Z → Editor → Prop :=
| move_none : editorMove e [] e
| move_annotation now d : editorMove e [now] (handleAddAnnotation now d e)
| move_signature now d : editorMove e [now] (handleAddSignature now d e)
| move_upload file : editorMove e [] (handleFileUpload file e)
| move_zoomIn : editorMove e [] (handleZoomIn e)
| move_zoomOut : editorMove e [] (handleZoomOut e)
| move_page direction : editorMove e [] (handlePageChange direction e)
| move_tool tool : editorMove e [] (handleToolSelect tool e)
| move_undo e' : handleUndo e = Some e' → editorMove e [] e'
| move_redo e' : handleRedo e = Some e' → editorMove e [] e'.

(** References held by an array are allocated and pairwise distinct. *)
Definition wfRefs (h : list Annotation) (rs : list Ref) : Prop :=
  Forall (λ r, (r < length h)%nat) rs ∧ NoDup rs.

(** What every state of a session satisfies: the cursor is within the
    history, the arrays hold allocated, distinct references, and no layer
    entry was ever added. *)
Record wfStore (e : Editor) : Prop := mkWfStore {
  wf_index : -1 ≤ historyIndex e < Z.of_nat (length (history e));
  wf_annotations : wfRefs (heap e) (annotations e);
  wf_history : Forall (wfRefs (heap e)) (history e);
  wf_layers : layers e = []
}.

(** The ids of the allocated objects, in allocation order. *)
Definition heapIds (e : Editor) : list Z := ann_id <$> heap e.

(** The ids of the annotation set, in store order. *)
Definition storeIds (e : Editor) : list Z :=
  ann_id <$> annotationsProp e.

(** Events that are not layer deletions. *)
Definition notDeleteLayer (ev : Event) : Prop :=
  match ev with DeleteLayer _ => False | _ => True end.

(** ** Layers *)

(** The paint-order key of an annotation, as [LayerManager] reads it. *)
Definition layerKey (a : Annotation) : Z := js_or_Z (ann_layer a) 0.

(** The keys under which [LayerManager] files the annotations, in store
    order (with repetitions). *)
Definition layerKeys (h : list Annotation) (anns : list Ref) : list Z :=
  (λ r, js_or_Z (layer_of h r) 0) <$> anns.

(** The largest layer key in use (0 for an empty store). *)
Definition maxObservedLayer (e : Editor) : Z :=
  foldr Z.max 0 (layerKeys (heap e) (annotations e)).

(** A sequence of annotations is in layer order when no annotation
    precedes one of a lower layer. *)
Definition layerAscending (l : list Annotation) : Prop :=
  StronglySorted (λ a b, layerKey a ≤ layerKey b) l.

(** The annotations one projection pass draws. *)
Definition drawnAnnotations (e : Editor) : list Annotation :=
  pageAnnotations (currentPage e) (annotationsProp e).

(** Every object of the store is filed under layer 0. *)
Definition flatLayers (e : Editor) : Prop :=
  Forall (λ a, layerKey a = 0) (heap e).

(** ** Stores and sessions used as instances *)

(** The annotations of [mockData.js]: the first entry. *)
Definition mockText : Annotation :=
  {| ann_type := "text"; ann_x := 100; ann_y := 200;
     ann_width := None; ann_height := None; ann_color := Some "#000000";
     ann_text := Some "Sample text annotation"; ann_fontSize := Some 14%Q;
     ann_imageData := None; ann_id := 1; ann_page := 1;
     ann_layer := Some 0 |}.

(** Its second entry. *)
Definition mockRectangle : Annotation :=
  {| ann_type := "rectangle"; ann_x := 150; ann_y := 250;
     ann_width := Some 200%Q; ann_height := Some 100%Q;
     ann_color := Some "#ff0000"; ann_text := None; ann_fontSize := None;
     ann_imageData := None; ann_id := 2; ann_page := 1;
     ann_layer := Some 1 |}.

(** Its third entry. *)
Definition mockHighlight : Annotation :=
  {| ann_type := "highlight"; ann_x := 80; ann_y := 300;
     ann_width := Some 250%Q; ann_height := Some 20%Q;
     ann_color := Some "rgba(255, 255, 0, 0.3)"; ann_text := None;
     ann_fontSize := None; ann_imageData := None; ann_id := 3;
     ann_page := 1; ann_layer := Some 2 |}.

(** The exported array. *)
Definition mockAnnotations : list Annotation :=
  [mockText; mockRectangle; mockHighlight].

(** An editor whose store holds the annotations of [mockData.js]. *)
Definition mockEditor : Editor :=
  {| heap := mockAnnotations; currentPage := 1; totalPages := 3;
     zoomLevel := 1%Q; selectedTool := "select";
     annotations := [0; 1; 2]%nat; layers := [];
     history := [[0; 1; 2]%nat]; historyIndex := 0 |}.

(** A session of two commits, used to instantiate the statements below. *)
Definition twoCommits : list Event :=
  [ImageUpload "data:image/png;base64,AAAA" 1000;
   UseSignature (Some "data:image/png;base64,BBBB") 1001].

(** The state the session ends in. *)
Definition afterTwoCommits : Viewer * Editor :=
  default initialSession (run twoCommits initialSession).

(** Two commits made at the same clock reading. *)
Definition sameTick : list Event :=
  [ImageUpload "data:image/png;base64,AAAA" 1000;
   UseSignature (Some "data:image/png;base64,BBBB") 1000].

(** The state the session ends in. *)
Definition afterSameTick : Viewer * Editor :=
  default initialSession (run sameTick initialSession).


(** A rectangle drag from (10, 10) to (14, 90) at zoom 1: the preview is 4
    wide and 80 high. *)
Definition narrowDrag : list Event :=
  [ToolSelect "rectangle";
   MouseDown (mkMouseEvent 10 10 0 0) None 0;
   MouseMove (mkMouseEvent 14 90 0 0)].

(** The state the session ends in: the drag is still in progress. *)
Definition afterNarrowDrag : Viewer * Editor :=
  default initialSession (run narrowDrag initialSession).

(** The preview of that drag. *)
Definition narrowDraft : Draft :=
  dragDraft "rectangle" (mkPoint (10 / 1) (10 / 1)) (mkPoint (14 / 1) (90 / 1)).

(** A rectangle dragged from (10, 10) to (110, 90) and released. *)
Definition oneRectangle : list Event :=
  [ToolSelect "rectangle";
   MouseDown (mkMouseEvent 10 10 0 0) None 0;
   MouseMove (mkMouseEvent 110 90 0 0);
   MouseUp 1000].

(** The state the session ends in. *)
Definition afterOneRectangle : Viewer * Editor :=
  default initialSession (run oneRectangle initialSession).

(** ** Vocabulary of the further properties *)

(** The annotation set is the snapshot under the cursor, or nothing was
    pushed yet and the set is empty. *)
Definition storeSynced (e : Editor) : Prop :=
  js_index (history e) (historyIndex e) = Some (annotations e)
  ∨ (historyIndex e = -1 ∧ history e = [] ∧ annotations e = []).

(** The snapshots are the successive prefixes of the last one: snapshot
    [j] holds [j + 1] annotations and every earlier snapshot [i] is its
    first [i + 1] annotations. *)
Definition historyChain (h : list (list Ref)) : Prop :=
  ∀ i j a b, (i ≤ j)%nat → h !! i = Some a → h !! j = Some b →
             a = take (S i) b ∧ length b = S j.

(** Events of the canvas. *)
Definition isMouseEvent (ev : Event) : Prop :=
  match ev with
  | MouseDown _ _ _ | MouseMove _ | MouseUp _ => True
  | _ => False
  end.

(** The tools a drag draws with. *)
Definition shapeTools : list string :=
  ["rectangle"; "circle"; "highlight"; "arrow"].

(** The four forms of a stored annotation: a text without geometry and
    with a non-empty string, a shape larger than the drag threshold in both
    axes, an image of 200 by 150 with its data, a signature of 200 by 100. *)
Definition wellShaped (a : Annotation) : Prop :=
  (ann_type a = "text" ∧ ann_width a = None ∧ ann_height a = None
   ∧ ann_imageData a = None ∧ ∃ str, ann_text a = Some str ∧ str ≠ "")
  ∨ (ann_type a ∈ shapeTools ∧ ann_text a = None ∧ ann_imageData a = None
     ∧ ∃ w h, ann_width a = Some w ∧ ann_height a = Some h
              ∧ (5 < w)%Q ∧ (5 < h)%Q)
  ∨ (ann_type a = "image" ∧ ann_width a = Some 200%Q
     ∧ ann_height a = Some 150%Q ∧ ann_text a = None
     ∧ ∃ data, ann_imageData a = Some data)
  ∨ (ann_type a = "signature" ∧ ann_width a = Some 200%Q
     ∧ ann_height a = Some 100%Q ∧ ann_text a = None).

(** The drag preview, when there is one, is a shape with a width and a
    height. *)
Definition draftShaped (v : Viewer) : Prop :=
  ∀ d, currentAnnotation v = Some d →
       d_type d ∈ shapeTools ∧ d_text d = None ∧ d_imageData d = None
       ∧ ∃ w h, d_width d = Some w ∧ d_height d = Some h.

(** ** Vocabulary of the paint order *)

(** The operations whose painting is deferred to an [onload]. *)
Definition deferred (p : Primitive) : bool :=
  match p with
  | ImageOnLoad _ _ _ _ _ => true
  | _ => false
  end.

(** The operations of a pass that paint during the pass, in call order. *)
Definition immediateCalls (calls : list Primitive) : list Primitive :=
  filter (λ p, deferred p = false) calls.

(** The image draws a pass has requested. *)
Definition deferredCalls (calls : list Primitive) : list Primitive :=
  filter (λ p, deferred p = true) calls.

(** What the operations of one pass end up painting: the immediate ones in
    call order, then, as the images load, the deferred ones: in the order
    of the loads, and only those whose image loads. *)
Definition paints (calls painted : list Primitive) : Prop :=
  ∃ late, late ⊆+ deferredCalls calls
          ∧ painted = immediateCalls calls ++ late.

(** ** Vocabulary of the linear history *)

(** The history is linear: the cursor is within it, the annotation set is
    the snapshot under the cursor, and the snapshots are the successive
    prefixes of the last one. *)
Definition linearHistory (e : Editor) : Prop :=
  -1 ≤ historyIndex e < Z.of_nat (length (history e))
  ∧ storeSynced e
  ∧ historyChain (history e).

(** ** More sessions used as instances *)

(** Two texts typed with the text tool. *)
Definition oneText : list Event :=
  [ToolSelect "text";
   MouseDown (mkMouseEvent 10 10 0 0) (Some "a") 1000].

Definition twoTexts : list Event :=
  oneText ++ [MouseDown (mkMouseEvent 10 40 0 0) (Some "b") 1001].

Definition afterOneText : Viewer * Editor :=
  default initialSession (run oneText initialSession).

Definition afterTwoTexts : Viewer * Editor :=
  default initialSession (run twoTexts initialSession).

(** The two texts, then their layer deleted. *)
Definition twoTextsDeleted : list Event := twoTexts ++ [DeleteLayer 0].

Definition afterTwoTextsDeleted : Viewer * Editor :=
  default initialSession (run twoTextsDeleted initialSession).

(** An image picked after the first text and read after the second. *)
Definition lateImage : Editor :=
  match handleImageUpload (Some (mkImageFile "logo.png" "image/png"))
          afterOneText.2 with
  | Some onload => onload "data:image/png;base64,AAAA" 1002 afterTwoTexts.2
  | None => afterTwoTexts.2
  end.

(** * Properties *)

(** ** JavaScript helpers *)

Lemma js_gt_true (a : option Q) (b : Q) :
  js_gt a b = true ↔ ∃ v, a = Some v ∧ (b < v)%Q.
Proof.
  destruct a as [v|]; simpl.
  - rewrite negb_true_iff, <- not_true_iff_false, Qle_bool_iff. split.
    + intros H. exists v. split; [done|]. by apply Qnot_le_lt.
    + intros (w & [= <-] & H). by apply Qlt_not_le.
  - split; [done|]. by intros (v & ? & _).
Qed.

Lemma js_index_Some {A} (arr : list A) (i : Z) (x : A) :
  js_index arr i = Some x ↔ 0 ≤ i ∧ arr !! Z.to_nat i = Some x.
Proof.
  unfold js_index. case_decide.
  - split; [done | lia].
  - split; [intros Hx; split; [lia | done] | by intros [_ Hx]].
Qed.

Lemma js_index_lt {A} (arr : list A) (i : Z) (x : A) :
  js_index arr i = Some x → 0 ≤ i < Z.of_nat (length arr).
Proof.
  rewrite js_index_Some. intros [Hi Hx].
  apply lookup_lt_Some in Hx. lia.
Qed.

Lemma js_slice0_nonneg {A} (arr : list A) (e : Z) :
  0 ≤ e → js_slice0 arr e = take (Z.to_nat e) arr.
Proof. intros He. unfold js_slice0. case_decide; [lia | done]. Qed.

Lemma js_slice0_Forall {A} (P : A → Prop) (arr : list A) (e : Z) :
  Forall P arr → Forall P (js_slice0 arr e).
Proof. intros H. unfold js_slice0. case_decide; by apply Forall_take. Qed.

Lemma js_slice0_prefix {A} (arr : list A) (e : Z) :
  js_slice0 arr e `prefix_of` arr.
Proof. unfold js_slice0. case_decide; apply prefix_take. Qed.

(** ** History engine *)

Section History.

Implicit Types (e : Editor) (snap : list Ref).

Lemma addToHistory_history snap e :
  history (addToHistory snap e)
  = js_slice0 (history e) (historyIndex e + 1) ++ [snap].
Proof. reflexivity. Qed.

Lemma addToHistory_index snap e :
  historyIndex (addToHistory snap e)
  = Z.of_nat (length (history (addToHistory snap e))) - 1.
Proof. reflexivity. Qed.

(** The cursor points at the snapshot just pushed. *)
Lemma addToHistory_cursor snap e :
  js_index (history (addToHistory snap e)) (historyIndex (addToHistory snap e))
  = Some snap.
Proof.
  rewrite addToHistory_index, addToHistory_history.
  apply js_index_Some. rewrite length_app. simpl. split; [lia|].
  replace (Z.to_nat (Z.of_nat (length (js_slice0 (history e) (historyIndex e + 1)) + 1) - 1))
    with (length (js_slice0 (history e) (historyIndex e + 1)) + 0)%nat by lia.
  by rewrite lookup_app_r, Nat.add_0_r, Nat.sub_diag by lia.
Qed.

Lemma addToHistory_other snap e :
  heap (addToHistory snap e) = heap e
  ∧ annotations (addToHistory snap e) = annotations e
  ∧ layers (addToHistory snap e) = layers e
  ∧ currentPage (addToHistory snap e) = currentPage e.
Proof. done. Qed.

Lemma handleUndo_disabled e :
  historyIndex e ≤ 0 → handleUndo e = Some e.
Proof. intros H. unfold handleUndo. case_decide; [lia | done]. Qed.

Lemma handleUndo_enabled e snap :
  0 < historyIndex e →
  (history e) !! Z.to_nat (historyIndex e - 1) = Some snap →
  handleUndo e
  = Some (setAnnotations snap (setHistoryIndex (historyIndex e - 1) e)).
Proof.
  intros H Hs. unfold handleUndo. case_decide; [|lia].
  assert (js_index (history e) (historyIndex e - 1) = Some snap) as ->; [|done].
  apply js_index_Some. split; [lia | done].
Qed.

Lemma handleRedo_disabled e :
  Z.of_nat (length (history e)) - 1 ≤ historyIndex e → handleRedo e = Some e.
Proof. intros H. unfold handleRedo. case_decide; [lia | done]. Qed.

Lemma handleRedo_enabled e snap :
  historyIndex e < Z.of_nat (length (history e)) - 1 →
  js_index (history e) (historyIndex e + 1) = Some snap →
  handleRedo e
  = Some (setAnnotations snap (setHistoryIndex (historyIndex e + 1) e)).
Proof.
  intros H Hs. unfold handleRedo. case_decide; [|lia]. by rewrite Hs.
Qed.

End History.

(** ** The object store under [handleMoveLayer] *)

Section MoveLayerStore.

Variables (direction : string) (n : Z).

Lemma moveOne_id a : ann_id (moveOne direction n a) = ann_id a.
Proof. unfold moveOne. by case_decide. Qed.


Lemma forEach_length rs h : length (forEachMove direction n rs h) = length h.
Proof.
  revert h. induction rs as [|r rs IH]; intros h; simpl; [done|].
  by rewrite IH, length_alter.
Qed.

Lemma forEach_ids rs h : ann_id <$> forEachMove direction n rs h = ann_id <$> h.
Proof.
  revert h. induction rs as [|r rs IH]; intros h; simpl; [done|].
  rewrite IH. apply list_eq. intros i.
  rewrite !list_lookup_fmap, list_lookup_alter. case_decide; [subst|done].
  destruct (h !! i); simpl; [by rewrite moveOne_id | done].
Qed.


Lemma forEach_lookup_notin rs h r :
  r ∉ rs → forEachMove direction n rs h !! r = h !! r.
Proof.
  revert h. induction rs as [|r' rs IH]; intros h Hr; simpl; [done|].
  apply not_elem_of_cons in Hr as [Hne Hr].
  rewrite IH by done. by apply list_lookup_alter_ne.
Qed.

Lemma forEach_lookup_in rs h r :
  NoDup rs → r ∈ rs → forEachMove direction n rs h !! r = moveOne direction n <$> h !! r.
Proof.
  revert h. induction rs as [|r' rs IH]; intros h Hnd Hr; simpl.
  - by apply elem_of_nil in Hr.
  - apply NoDup_cons in Hnd as [Hnotin Hnd].
    apply elem_of_cons in Hr as [->|Hr].
    + rewrite forEach_lookup_notin by done. apply list_lookup_alter_eq.
    + rewrite IH by done.
      rewrite list_lookup_alter_ne; [done|]. by intros ->.
Qed.

End MoveLayerStore.

(** ** Sessions: what one event does to the editor *)

Lemma handleAddAnnotation_commit now d e :
  handleAddAnnotation now d e
  = commitObject
      (spread d now (currentPage e) (Some (Z.of_nat (length (layers e))))) e.
Proof. reflexivity. Qed.

Lemma handleAddSignature_commit now d e :
  handleAddSignature now d e
  = commitObject (spread d now (currentPage e) None) e.
Proof. reflexivity. Qed.

Lemma step_editorMove ev s s' :
  step ev s = Some s' →
  (∃ k, ev = DeleteLayer k ∧ s'.2 = handleDeleteLayer k s.2
        ∧ commitTime s ev = [])
  ∨ (∃ k direction, ev = MoveLayer k direction
        ∧ s'.2 = handleMoveLayer k direction s.2 ∧ commitTime s ev = [])
  ∨ editorMove s.2 (commitTime s ev) s'.2.
Proof.
  destruct s as [v e]. destruct ev; simpl; unfold onEditor; simpl;
    try (intros [= <-]; simpl; right; right; by constructor).
  - (* MouseDown *)
    intros [= <-]. right. right. unfold handleMouseDown.
    destruct (decide (selectedTool e = "select")) as [Hsel|Hsel]; simpl.
    + rewrite decide_False by (rewrite Hsel; done). apply move_none.
    + destruct (decide (selectedTool e = "text")); simpl; [|apply move_none].
      destruct promptResult as [str|]; [|apply move_none].
      destruct (decide (str = "")); [apply move_none|apply move_annotation].
  - (* MouseMove *)
    intros [= <-]. right. right. unfold handleMouseMove.
    destruct (isDrawing v), (startPoint v); simpl; try apply move_none.
    case_bool_decide; simpl; apply move_none.
  - (* MouseUp *)
    intros [= <-]. right. right. unfold handleMouseUp.
    destruct (isDrawing v), (currentAnnotation v) as [d|]; simpl;
      try apply move_none.
    destruct (js_gt (d_width d) 5 && js_gt (d_height d) 5); simpl;
      [apply move_annotation|apply move_none].
  - (* Undo *)
    destruct (handleUndo e) as [e'|] eqn:Hu; simpl; [|done].
    intros [= <-]. right. right. by constructor.
  - (* Redo *)
    destruct (handleRedo e) as [e'|] eqn:Hu; simpl; [|done].
    intros [= <-]. right. right. by constructor.
  - (* MoveLayer *)
    intros [= <-]. right. left. eauto.
  - (* DeleteLayer *)
    intros [= <-]. left. eauto.
Qed.

(** ** Invariants of the store *)

Lemma wfRefs_grow h h' rs :
  (length h ≤ length h')%nat → wfRefs h rs → wfRefs h' rs.
Proof.
  intros Hle [Hlt Hnd]. split; [|done].
  eapply Forall_impl; [done|]. simpl. lia.
Qed.

Lemma wfRefs_alloc h a rs :
  wfRefs h rs → wfRefs (h ++ [a]) (rs ++ [length h]).
Proof.
  intros [Hlt Hnd]. split.
  - apply Forall_app. split.
    + eapply Forall_impl; [done|]. simpl. intros r. rewrite length_app. lia.
    + apply Forall_singleton. rewrite length_app. simpl. lia.
  - apply NoDup_app. split_and!; [done| |apply NoDup_singleton].
    intros r Hr. rewrite Forall_forall in Hlt. apply Hlt in Hr.
    rewrite list_elem_of_singleton. lia.
Qed.

Lemma wfRefs_filter h (P : Ref → Prop) `{∀ r, Decision (P r)} rs :
  wfRefs h rs → wfRefs h (filter P rs).
Proof.
  intros [Hlt Hnd]. split; [|by apply NoDup_filter].
  rewrite Forall_forall in Hlt. apply Forall_forall. intros r Hr.
  apply list_elem_of_filter in Hr as [_ Hr]. by apply Hlt.
Qed.

Lemma wfStore_initial : wfStore initialEditor.
Proof.
  split; simpl; [lia | | constructor | done].
  split; constructor.
Qed.

Lemma wfStore_commit a e : wfStore e → wfStore (commitObject a e).
Proof.
  intros [Hi Ha Hh Hl]. split.
  - unfold commitObject. rewrite addToHistory_index, addToHistory_history.
    rewrite length_app. simpl. lia.
  - simpl. by apply wfRefs_alloc.
  - unfold commitObject. rewrite addToHistory_history. simpl.
    apply Forall_app. split.
    + eapply Forall_impl.
      * apply js_slice0_Forall, Hh.
      * intros rs. apply wfRefs_grow. rewrite length_app. lia.
    + apply Forall_singleton. by apply wfRefs_alloc.
  - done.
Qed.

Lemma wfStore_upload file e : wfStore e → wfStore (handleFileUpload file e).
Proof.
  intros He. unfold handleFileUpload.
  destruct file as [f|]; [|done]. repeat case_decide; try done.
  split; simpl; [lia | | constructor | done].
  split; constructor.
Qed.

Lemma wfStore_undo e e' : handleUndo e = Some e' → wfStore e → wfStore e'.
Proof.
  unfold handleUndo. intros Hu [Hi Ha Hh Hl].
  case_decide; [|by simplify_eq].
  destruct (js_index (history e) (historyIndex e - 1)) as [snap|] eqn:Hs;
    simplify_eq/=.
  split; simpl; [lia | | done | done].
  apply js_index_Some in Hs as [_ Hs].
  rewrite Forall_forall in Hh. apply Hh. by eapply list_elem_of_lookup_2.
Qed.

Lemma wfStore_redo e e' : handleRedo e = Some e' → wfStore e → wfStore e'.
Proof.
  unfold handleRedo. intros Hu [Hi Ha Hh Hl].
  case_decide; [|by simplify_eq].
  destruct (js_index (history e) (historyIndex e + 1)) as [snap|] eqn:Hs;
    simplify_eq/=.
  split; simpl; [lia | | done | done].
  apply js_index_Some in Hs as [_ Hs].
  rewrite Forall_forall in Hh. apply Hh. by eapply list_elem_of_lookup_2.
Qed.

Lemma wfStore_moveLayer k direction e :
  wfStore e → wfStore (handleMoveLayer k direction e).
Proof.
  intros [Hi Ha Hh Hl]. split; simpl; [done | | | done].
  - eapply wfRefs_grow; [|done]. by rewrite forEach_length.
  - eapply Forall_impl; [done|]. intros rs.
    apply wfRefs_grow. by rewrite forEach_length.
Qed.

Lemma wfStore_deleteLayer k e : wfStore e → wfStore (handleDeleteLayer k e).
Proof.
  intros [Hi Ha Hh Hl]. split; simpl; [done | | done | done].
  by apply wfRefs_filter.
Qed.

Lemma wfStore_move e ts e' : editorMove e ts e' → wfStore e → wfStore e'.
Proof.
  destruct 1; intros He; try done.
  - rewrite handleAddAnnotation_commit. by apply wfStore_commit.
  - rewrite handleAddSignature_commit. by apply wfStore_commit.
  - by apply wfStore_upload.
  - by destruct He.
  - by destruct He.
  - unfold handlePageChange. repeat case_decide; by destruct He.
  - by destruct He.
  - by eapply wfStore_undo.
  - by eapply wfStore_redo.
Qed.

Lemma wfStore_step ev s s' : step ev s = Some s' → wfStore s.2 → wfStore s'.2.
Proof.
  intros Hstep He.
  apply step_editorMove in Hstep as [(k & _ & -> & _)|[(k & d & _ & -> & _)|Hm]].
  - by apply wfStore_deleteLayer.
  - by apply wfStore_moveLayer.
  - by eapply wfStore_move.
Qed.

Lemma wfStore_run evs s s' : run evs s = Some s' → wfStore s.2 → wfStore s'.2.
Proof.
  revert s. induction evs as [|ev evs IH]; intros s; simpl.
  - by intros [= <-].
  - destruct (step ev s) as [s1|] eqn:Hstep; simpl; [|done].
    intros Hrun He. eapply IH; [done|]. by eapply wfStore_step.
Qed.

(** No handler installs [undefined] in a well-formed state. *)
Lemma step_total ev s : wfStore s.2 → is_Some (step ev s).
Proof.
  intros [Hi Ha Hh Hl]. destruct ev; simpl; unfold onEditor; try done.
  - unfold handleUndo. case_decide; [|done].
    destruct (lookup_lt_is_Some_2 (history s.2)
                (Z.to_nat (historyIndex s.2 - 1))) as [snap Hs]; [lia|].
    assert (js_index (history s.2) (historyIndex s.2 - 1) = Some snap) as ->;
      [|done].
    apply js_index_Some. split; [lia | done].
  - unfold handleRedo. case_decide; [|done].
    destruct (lookup_lt_is_Some_2 (history s.2)
                (Z.to_nat (historyIndex s.2 + 1))) as [snap Hs]; [lia|].
    assert (js_index (history s.2) (historyIndex s.2 + 1) = Some snap) as ->;
      [|done].
    apply js_index_Some. split; [lia | done].
Qed.

Lemma run_total evs s : wfStore s.2 → is_Some (run evs s).
Proof.
  revert s. induction evs as [|ev evs IH]; intros s He; simpl; [done|].
  destruct (step_total ev s He) as [s1 Hs1]. rewrite Hs1. simpl.
  apply IH. by eapply wfStore_step.
Qed.

(** Every event of a session is served: no render ever throws. *)
Lemma session_never_throws evs : is_Some (run evs initialSession).
Proof. apply run_total, wfStore_initial. Qed.

(** ** Identifiers in the object store *)

Lemma heapIds_commit a e : heapIds (commitObject a e) = heapIds e ++ [ann_id a].
Proof. unfold heapIds. simpl. by rewrite fmap_app. Qed.

Lemma heapIds_upload file e : heapIds (handleFileUpload file e) = heapIds e.
Proof.
  unfold handleFileUpload. destruct file; [|done]. by repeat case_decide.
Qed.

Lemma heapIds_undo e e' : handleUndo e = Some e' → heapIds e' = heapIds e.
Proof.
  unfold handleUndo. intros Hu. case_decide; [|by simplify_eq].
  destruct (js_index (history e) (historyIndex e - 1)); by simplify_eq/=.
Qed.

Lemma heapIds_redo e e' : handleRedo e = Some e' → heapIds e' = heapIds e.
Proof.
  unfold handleRedo. intros Hu. case_decide; [|by simplify_eq].
  destruct (js_index (history e) (historyIndex e + 1)); by simplify_eq/=.
Qed.

Lemma heapIds_move e ts e' : editorMove e ts e' → heapIds e' = heapIds e ++ ts.
Proof.
  destruct 1; rewrite ?app_nil_r; try done.
  - rewrite handleAddAnnotation_commit. apply heapIds_commit.
  - rewrite handleAddSignature_commit. apply heapIds_commit.
  - apply heapIds_upload.
  - unfold handlePageChange. by repeat case_decide.
  - by apply heapIds_undo.
  - by apply heapIds_redo.
Qed.

Lemma heapIds_step ev s s' :
  step ev s = Some s' → heapIds s'.2 = heapIds s.2 ++ commitTime s ev.
Proof.
  intros Hstep.
  apply step_editorMove in Hstep
    as [(k & _ & -> & ->)|[(k & d & _ & -> & ->)|Hm]].
  - by rewrite app_nil_r.
  - rewrite app_nil_r. unfold heapIds. simpl. apply forEach_ids.
  - by apply heapIds_move.
Qed.

(** The store holds the objects of the session's commits, and each keeps
    the clock reading of its commit as id. *)
Lemma heapIds_run evs s s' :
  run evs s = Some s' → heapIds s'.2 = heapIds s.2 ++ commitTimes evs s.
Proof.
  revert s. induction evs as [|ev evs IH]; intros s; simpl.
  - intros [= <-]. by rewrite app_nil_r.
  - destruct (step ev s) as [s1|] eqn:Hstep; simpl; [|done].
    intros Hrun. rewrite (IH _ Hrun), (heapIds_step _ _ _ Hstep).
    by rewrite app_assoc.
Qed.

(** References that are allocated and distinct select distinct positions
    of the store. *)
Lemma storeIds_NoDup e :
  wfRefs (heap e) (annotations e) → NoDup (heapIds e) → NoDup (storeIds e).
Proof.
  unfold storeIds, annotationsProp, heapIds. intros [Hlt Hnd] Hids.
  induction (annotations e) as [|r rs IH]; simpl; [constructor|].
  apply Forall_cons in Hlt as [Hr Hlt]. apply NoDup_cons in Hnd as [Hnotin Hnd].
  destruct (lookup_lt_is_Some_2 (heap e) r Hr) as [a Ha]. rewrite Ha. simpl.
  apply NoDup_cons. split; [|by apply IH].
  intros Hin. apply list_elem_of_fmap in Hin as (b & Hab & Hb).
  apply list_elem_of_omap in Hb as (r' & Hr' & Hb).
  assert (r = r') as <-; [|done].
  eapply NoDup_lookup; [exact Hids| |].
  - rewrite list_lookup_fmap, Ha. done.
  - rewrite list_lookup_fmap, Hb. simpl. by rewrite Hab.
Qed.

(** ** Claims on the history engine *)

(** C1, as stated, fails.  Two texts are typed and their layer is
    deleted, all through enabled controls: the annotation set is empty, the
    cursor is still at the second snapshot and undo is enabled.  Undo
    installs the first snapshot, and the redo after it installs the second:
    both texts are back, which is not the state the undo started from.
    The same happens without any deletion when an image picked after the
    first text is read after the second: the set holds the three
    annotations while the snapshot under the cursor holds the first text
    and the image. *)
Lemma undo_redo_loses_the_set :
  guarded twoTextsDeleted initialSession
  ∧ run twoTextsDeleted initialSession = Some afterTwoTextsDeleted
  ∧ (let e := afterTwoTextsDeleted.2 in
     annotations e = [] ∧ history e = [[0]; [0; 1]]%nat ∧ historyIndex e = 1
     ∧ undoDisabled e = false
     ∧ annotations <$> (handleUndo e ≫= handleRedo) = Some [0; 1]%nat
     ∧ handleUndo e ≫= handleRedo ≠ Some e)
  ∧ (let e := lateImage in
     annotations e = [0; 1; 2]%nat ∧ history e = [[0]; [0; 2]]%nat
     ∧ historyIndex e = 1
     ∧ annotations <$> (handleUndo e ≫= handleRedo) = Some [0; 2]%nat
     ∧ handleUndo e ≫= handleRedo ≠ Some e).
Proof.
  split_and!; try (vm_compute; reflexivity).
  - simpl. split_and!; try done;
      apply (bool_decide_unpack _); vm_compute; exact I.
  - intros e. split_and!; try (vm_compute; reflexivity).
    intros Heq. apply (f_equal (fmap annotations)) in Heq.
    vm_compute in Heq. discriminate.
  - intros e. split_and!; try (vm_compute; reflexivity).
    intros Heq. apply (f_equal (fmap annotations)) in Heq.
    vm_compute in Heq. discriminate.
Qed.

(** C1 (amended).  Undo followed at once by redo gives back the state the
    undo started from exactly when the annotation set of that state is the
    snapshot under the cursor.  With the cursor above 0 and within the
    history, undo decrements [historyIndex] and installs
    [history[historyIndex - 1]]; the redo after it restores the cursor and
    installs [history[historyIndex]], the history and the objects being
    untouched: the result is the starting state if and only if its
    annotation set was [history[historyIndex]].  That is so after every
    commit made through the handler of the current render, and after every
    undo and every redo that takes effect. *)
Theorem undo_redo_roundtrip :
  (∀ e, 0 < historyIndex e < Z.of_nat (length (history e)) →
     ∃ u r,
       handleUndo e = Some u
       ∧ historyIndex u = historyIndex e - 1
       ∧ js_index (history e) (historyIndex e - 1) = Some (annotations u)
       ∧ handleRedo u = Some r
       ∧ historyIndex r = historyIndex e
       ∧ history r = history e
       ∧ heap r = heap e
       ∧ js_index (history e) (historyIndex e) = Some (annotations r)
       ∧ (r = e ↔ js_index (history e) (historyIndex e) = Some (annotations e)))
  ∧ (∀ now d e,
       let c := handleAddAnnotation now d e in
       let c' := handleAddSignature now d e in
       js_index (history c) (historyIndex c) = Some (annotations c)
       ∧ js_index (history c') (historyIndex c') = Some (annotations c'))
  ∧ (∀ e u, 0 < historyIndex e → handleUndo e = Some u →
       js_index (history u) (historyIndex u) = Some (annotations u))
  ∧ (∀ e r, historyIndex e < Z.of_nat (length (history e)) - 1 →
       handleRedo e = Some r →
       js_index (history r) (historyIndex r) = Some (annotations r)).
Proof.
  split_and!.
  - intros e [Hpos Hlt].
    destruct (lookup_lt_is_Some_2 (history e) (Z.to_nat (historyIndex e - 1)))
      as [before Hb]; [lia|].
    destruct (lookup_lt_is_Some_2 (history e) (Z.to_nat (historyIndex e)))
      as [under Hu]; [lia|].
    set (u := setAnnotations before (setHistoryIndex (historyIndex e - 1) e)).
    assert (js_index (history e) (historyIndex e) = Some under) as Hunder.
    { apply js_index_Some. split; [lia|done]. }
    exists u, (setAnnotations under (setHistoryIndex (historyIndex e) e)).
    split_and!; try done.
    + by apply handleUndo_enabled.
    + apply js_index_Some. split; [lia|done].
    + rewrite (handleRedo_enabled u under); simpl.
      * by replace (historyIndex e - 1 + 1) with (historyIndex e) by lia.
      * lia.
      * by replace (historyIndex e - 1 + 1) with (historyIndex e) by lia.
    + rewrite Hunder. split.
      * intros Heq. rewrite <- Heq. done.
      * intros [= ->]. by destruct e.
  - intros now d e. split.
    + rewrite handleAddAnnotation_commit. unfold commitObject.
      apply addToHistory_cursor.
    + rewrite handleAddSignature_commit. unfold commitObject.
      apply addToHistory_cursor.
  - intros e u Hpos. unfold handleUndo. rewrite decide_True by lia.
    destruct (js_index (history e) (historyIndex e - 1)) as [snap|] eqn:Hs;
      [|done].
    by intros [= <-].
  - intros e r Hlt. unfold handleRedo. rewrite decide_True by lia.
    destruct (js_index (history e) (historyIndex e + 1)) as [snap|] eqn:Hs;
      [|done].
    by intros [= <-].
Qed.

Lemma undo_redo_roundtrip_witness :
  ∃ u, handleUndo afterTwoTexts.2 = Some u
       ∧ handleRedo u = Some afterTwoTexts.2.
Proof.
  destruct (proj1 undo_redo_roundtrip afterTwoTexts.2)
    as (u & r & Hu & _ & _ & Hr & _ & _ & _ & _ & Hiff).
  - vm_compute. split; reflexivity.
  - exists u. split; [exact Hu|]. rewrite Hr. f_equal.
    apply Hiff. reflexivity.
Defined.



(** C8. Undo boundary.  With [historyIndex <= 0] (as in the initial, empty
    editor, where it is [-1]) the undo control is disabled and [handleUndo]
    leaves the whole state unchanged.  Otherwise [handleUndo] decrements
    [historyIndex] and replaces the annotation set by the snapshot at the new
    index; in a session that snapshot always exists. *)
Theorem undo_boundary :
  (historyIndex initialEditor = -1
   ∧ handleUndo initialEditor = Some initialEditor)
  ∧ (∀ e, historyIndex e ≤ 0 →
       undoDisabled e = true ∧ handleUndo e = Some e)
  ∧ (∀ e snap, 0 < historyIndex e →
       history e !! Z.to_nat (historyIndex e - 1) = Some snap →
       undoDisabled e = false
       ∧ ∃ e', handleUndo e = Some e'
               ∧ e' = setAnnotations snap
                        (setHistoryIndex (historyIndex e - 1) e)
               ∧ historyIndex e' = historyIndex e - 1
               ∧ annotations e' = snap
               ∧ history e' = history e)
  ∧ (∀ evs s, run evs initialSession = Some s → 0 < historyIndex s.2 →
       is_Some (history s.2 !! Z.to_nat (historyIndex s.2 - 1))).
Proof.
  split; [done|]. split; [|split].
  - intros e Hi. split; [|by apply handleUndo_disabled].
    unfold undoDisabled. by apply bool_decide_eq_true.
  - intros e snap Hpos Hs. split.
    + unfold undoDisabled. apply bool_decide_eq_false. lia.
    + eexists. split; [by apply handleUndo_enabled|done].
  - intros evs s Hrun Hpos.
    eapply wfStore_run in Hrun; [|apply wfStore_initial].
    destruct Hrun as [Hi _ _ _]. apply lookup_lt_is_Some_2. lia.
Qed.

Lemma undo_boundary_witness :
  undoDisabled afterTwoCommits.2 = false
  ∧ ∃ e', handleUndo afterTwoCommits.2 = Some e'
          ∧ e' = setAnnotations [0%nat]
                   (setHistoryIndex (historyIndex afterTwoCommits.2 - 1)
                      afterTwoCommits.2)
          ∧ historyIndex e' = historyIndex afterTwoCommits.2 - 1
          ∧ annotations e' = [0%nat]
          ∧ history e' = history afterTwoCommits.2.
Proof.
  apply (proj1 (proj2 (proj2 undo_boundary)) afterTwoCommits.2 [0%nat]).
  - vm_compute. reflexivity.
  - vm_compute. reflexivity.
Defined.

(** ** Claims on the pointer gestures *)

Lemma handleAddAnnotation_annotations now d e :
  annotations (handleAddAnnotation now d e)
  = annotations e ++ [length (heap e)].
Proof. reflexivity. Qed.

Lemma handleAddAnnotation_changes now d e :
  annotations (handleAddAnnotation now d e) ≠ annotations e.
Proof.
  rewrite handleAddAnnotation_annotations. intros Heq.
  apply (f_equal length) in Heq. rewrite length_app in Heq. simpl in Heq. lia.
Qed.

(** The draft a drag builds carries both a width and a height. *)
Lemma handleMouseMove_draft event v e d :
  currentAnnotation (handleMouseMove event (v, e)).1 = Some d →
  currentAnnotation v = Some d
  ∨ ∃ start,
      startPoint v = Some start
      ∧ d_width d
        = Some (Qabs (pt_x (getCanvasCoordinates (zoomLevel e) event)
                      - pt_x start))
      ∧ d_height d
        = Some (Qabs (pt_y (getCanvasCoordinates (zoomLevel e) event)
                      - pt_y start)).
Proof.
  unfold handleMouseMove.
  destruct (isDrawing v), (startPoint v) as [start|]; simpl; auto.
  case_bool_decide; simpl; auto.
  intros [= <-]. right. by exists start.
Qed.

Lemma handleMouseUp_drawing now v e d :
  isDrawing v = true → currentAnnotation v = Some d →
  handleMouseUp now (v, e)
  = (idleViewer,
     if js_gt (d_width d) 5 && js_gt (d_height d) 5
     then handleAddAnnotation now d e else e).
Proof.
  intros Hdraw Hcur. unfold handleMouseUp. rewrite Hdraw, Hcur.
  by destruct (js_gt (d_width d) 5 && js_gt (d_height d) 5).
Qed.

(** C3. Drag threshold.  On pointer-up over a drag in progress, a draft
    whose width or height is below 5 is dropped and the editor (hence the
    annotation list) is left as it was; the draft is committed, through
    [handleAddAnnotation], exactly when both its width and its height exceed
    5.  In both cases the viewer returns to idle. *)
Theorem drag_threshold (now : Z) (v : Viewer) (e : Editor) (d : Draft)
  (w h : Q) :
  isDrawing v = true →
  currentAnnotation v = Some d →
  d_width d = Some w →
  d_height d = Some h →
  let s' := handleMouseUp now (v, e) in
  s'.1 = idleViewer
  ∧ ((w < 5 ∨ h < 5)%Q → s'.2 = e)
  ∧ ((5 < w ∧ 5 < h)%Q → s'.2 = handleAddAnnotation now d e)
  ∧ (annotations s'.2 ≠ annotations e ↔ (5 < w ∧ 5 < h)%Q).
Proof.
  intros Hdraw Hcur Hw Hh s'. subst s'.
  rewrite (handleMouseUp_drawing now v e d Hdraw Hcur), Hw, Hh.
  destruct (js_gt (Some w) 5) eqn:Gw; [destruct (js_gt (Some h) 5) eqn:Gh|];
    cbn [andb fst snd].
  - apply js_gt_true in Gw as (? & [= <-] & Gw).
    apply js_gt_true in Gh as (? & [= <-] & Gh).
    split_and!; [done| |done|].
    + intros [Hlt|Hlt]; exfalso;
        eapply Qlt_irrefl, Qlt_trans; [exact Hlt|done|exact Hlt|done].
    + split; [done|]. intros _. apply handleAddAnnotation_changes.
  - assert (¬ (5 < h)%Q) as Hn.
    { intros Hlt. apply not_true_iff_false in Gh. apply Gh.
      apply js_gt_true. eauto. }
    split_and!; [done|done|by intros [_ ?]|].
    split; [done|by intros [_ ?]].
  - assert (¬ (5 < w)%Q) as Hn.
    { intros Hlt. apply not_true_iff_false in Gw. apply Gw.
      apply js_gt_true. eauto. }
    split_and!; [done|done|by intros [? _]|].
    split; [done|by intros [? _]].
Qed.

Lemma drag_threshold_witness :
  let s' := handleMouseUp 5 afterNarrowDrag in
  s'.1 = idleViewer
  ∧ ((Qabs (14 / 1 - 10 / 1) < 5 ∨ Qabs (90 / 1 - 10 / 1) < 5)%Q
     → s'.2 = afterNarrowDrag.2)
  ∧ ((5 < Qabs (14 / 1 - 10 / 1) ∧ 5 < Qabs (90 / 1 - 10 / 1))%Q
     → s'.2 = handleAddAnnotation 5 narrowDraft afterNarrowDrag.2)
  ∧ (annotations s'.2 ≠ annotations afterNarrowDrag.2
     ↔ (5 < Qabs (14 / 1 - 10 / 1) ∧ 5 < Qabs (90 / 1 - 10 / 1))%Q).
Proof.
  apply (drag_threshold 5 afterNarrowDrag.1 afterNarrowDrag.2 narrowDraft
           (Qabs (14 / 1 - 10 / 1)) (Qabs (90 / 1 - 10 / 1))).
  - vm_compute. reflexivity.
  - vm_compute. reflexivity.
  - vm_compute. reflexivity.
  - vm_compute. reflexivity.
Defined.

(** ** Claims on the projection *)





(** *** What a pass paints *)

(** Only a signature requests an image; every other operation paints
    during the pass. *)
Lemma immediateCalls_drawAnnotation zoom a :
  immediateCalls (drawAnnotation zoom a)
  = if decide (ann_type a = "signature") then [] else drawAnnotation zoom a.
Proof.
  unfold immediateCalls, drawAnnotation.
  destruct (decide (ann_type a = "signature")) as [Hs|Hs].
  - rewrite !Hs. simpl.
    destruct (ann_imageData a) as [src|]; [|done].
    by destruct (decide (src = "")).
  - repeat case_decide; done.
Qed.

Lemma deferredCalls_drawAnnotation zoom a :
  deferredCalls (drawAnnotation zoom a)
  = if decide (ann_type a = "signature") then drawAnnotation zoom a else [].
Proof.
  unfold deferredCalls, drawAnnotation.
  destruct (decide (ann_type a = "signature")) as [Hs|Hs].
  - rewrite !Hs. simpl.
    destruct (ann_imageData a) as [src|]; [|done].
    by destruct (decide (src = "")).
  - repeat case_decide; done.
Qed.

Lemma immediateCalls_app l l' :
  immediateCalls (l ++ l') = immediateCalls l ++ immediateCalls l'.
Proof. apply filter_app. Qed.

Lemma deferredCalls_app l l' :
  deferredCalls (l ++ l') = deferredCalls l ++ deferredCalls l'.
Proof. apply filter_app. Qed.





(** C5, as stated, fails: the rectangle sits on layer 0, and after the
    visibility of layer 0 is toggled it is still drawn. *)
Lemma toggled_layer_still_drawn :
  run oneRectangle initialSession = Some afterOneRectangle
  ∧ ann_layer <$> drawnAnnotations (handleToggleVisibility 0 afterOneRectangle.2)
    = [Some 0]
  ∧ length (project (handleToggleVisibility 0 afterOneRectangle.2)) = 1%nat.
Proof. split_and!; reflexivity. Qed.

(** C5 (amended).  [handleToggleVisibility] changes no state, and every
    listed layer has [visible = true]; the projection filters on the
    current page only, so it draws all the annotations of the page, before
    and after any toggle. *)
Theorem projection_filters_on_page_only (k : Z) (e : Editor) :
  handleToggleVisibility k e = e
  ∧ project (handleToggleVisibility k e) = project e
  ∧ Forall (λ l, visible l = true) (layerList (heap e) (annotations e))
  ∧ (∀ a, a ∈ drawnAnnotations e
          ↔ a ∈ annotationsProp e ∧ ann_page a = currentPage e)
  ∧ project e = drawnAnnotations e ≫= drawAnnotation (zoomLevel e).
Proof.
  split_and!; try done.
  - unfold layerList. apply Forall_fmap, Forall_forall. done.
  - intros a. unfold drawnAnnotations, pageAnnotations.
    rewrite list_elem_of_filter. tauto.
Qed.

(** ** The layer listing *)

Lemma groupedAnnotations_dom_acc h anns (acc : gmap Z (list Ref)) :
  dom (foldl (λ acc r,
                let layer := js_or_Z (layer_of h r) 0 in
                <[layer := default [] (acc !! layer) ++ [r]]> acc)
             acc anns)
  = dom acc ∪ list_to_set (layerKeys h anns).
Proof.
  revert acc. induction anns as [|r anns IH]; intros acc; simpl.
  - by rewrite (right_id_L ∅ (∪)).
  - rewrite IH, dom_insert_L.
    by rewrite (comm_L (∪) {[_]} (dom acc)), <- (assoc_L (∪)).
Qed.

Lemma groupedAnnotations_dom h anns :
  dom (groupedAnnotations h anns) = list_to_set (layerKeys h anns).
Proof.
  unfold groupedAnnotations. rewrite groupedAnnotations_dom_acc.
  by rewrite dom_empty_L, (left_id_L ∅ (∪)).
Qed.

(** [layerList.length] is the number of distinct layer keys in use. *)
Lemma layerList_length h anns :
  length (layerList h anns) = length (remove_dups (layerKeys h anns)).
Proof.
  unfold layerList. rewrite length_fmap, length_map_to_list.
  rewrite <- size_dom, groupedAnnotations_dom.
  rewrite <- (size_list_to_set (C := gset Z) (remove_dups (layerKeys h anns)))
    by apply NoDup_remove_dups.
  f_equal. apply set_eq. intros k.
  by rewrite !elem_of_list_to_set, elem_of_remove_dups.
Qed.

(** The listed layers are the keys in use. *)
Lemma layerList_index h anns k :
  k ∈ index <$> layerList h anns ↔ k ∈ layerKeys h anns.
Proof.
  unfold layerList. rewrite <- list_fmap_compose.
  rewrite <- (elem_of_list_to_set (C := gset Z) k (layerKeys h anns)).
  rewrite <- groupedAnnotations_dom, elem_of_dom.
  rewrite list_elem_of_fmap. split.
  - intros ([k' rs] & -> & Hin). apply elem_of_map_to_list in Hin. by eexists.
  - intros [rs Hrs]. exists (k, rs). split; [done|].
    by apply elem_of_map_to_list.
Qed.

(** ** Claims on the layer manager *)

Lemma handleMoveLayer_heap k direction e :
  heap (handleMoveLayer k direction e)
  = forEachMove direction
      (Z.of_nat (length (layerList (heap e) (annotations e))))
      (filter (λ r, layer_of (heap e) r = Some k) (annotations e)) (heap e).
Proof. reflexivity. Qed.

Lemma handleMoveLayer_unfold k direction e :
  handleMoveLayer k direction e
  = setAnnotations (annotations e)
      (setHeap (heap (handleMoveLayer k direction e)) e).
Proof. reflexivity. Qed.

Lemma set_layer_same a l : ann_layer a = l → set_layer l a = a.
Proof. intros <-. by destruct a. Qed.

(** C6, as stated, fails.  In the store of [mockData.js] (layers 0, 1, 2)
    the topmost layer moved up goes to layer 3, above every layer in use.
    After layer 0 is moved up (layers 1, 1, 2) the bottommost layer moved
    down goes to layer 0. *)
Lemma moveLayer_at_the_ends :
  maxObservedLayer mockEditor = 2
  ∧ ann_layer <$> heap (handleMoveLayer 2 "up" mockEditor)
    = [Some 0; Some 1; Some 3]
  ∧ handleMoveLayer 2 "up" mockEditor ≠ mockEditor
  ∧ ann_layer <$> heap (handleMoveLayer 0 "up" mockEditor)
    = [Some 1; Some 1; Some 2]
  ∧ ann_layer
      <$> heap (handleMoveLayer 1 "down" (handleMoveLayer 0 "up" mockEditor))
    = [Some 0; Some 0; Some 2].
Proof.
  split_and!; try (vm_compute; reflexivity).
  intros Heq. apply (f_equal (λ e, ann_layer <$> heap e)) in Heq.
  vm_compute in Heq. discriminate.
Qed.

(** C6 (amended).  [handleMoveLayer] writes only the [layer] field of the
    annotations of the store that sit at [layerIndex]: moved up it becomes
    [min (layer + 1) N], with [N] the number of distinct layer keys in use,
    and otherwise [max (layer - 1) 0].  The annotation set, the history and
    all other objects are left as they were.  The move is a no-op when the
    new value is the old one, as for layer 0 moved down; under an enabled
    move control the layer changes by exactly one. *)
Theorem handleMoveLayer_spec (k : Z) (direction : string) (e : Editor) :
  wfRefs (heap e) (annotations e) →
  let N := Z.of_nat (length (remove_dups (layerKeys (heap e) (annotations e)))) in
  let target :=
    if decide (direction = "up") then Z.min (k + 1) N else Z.max (k - 1) 0 in
  let e' := handleMoveLayer k direction e in
  annotations e' = annotations e
  ∧ history e' = history e
  ∧ historyIndex e' = historyIndex e
  ∧ (∀ r a, r ∈ annotations e → heap e !! r = Some a → ann_layer a = Some k →
            heap e' !! r = Some (set_layer (Some target) a))
  ∧ (∀ r, ¬ (r ∈ annotations e ∧ layer_of (heap e) r = Some k) →
          heap e' !! r = heap e !! r)
  ∧ (target = k → e' = e)
  ∧ (k = 0 → direction = "down" → e' = e)
  ∧ (direction = "up" → moveUpDisabled e k = false → target = k + 1)
  ∧ (direction = "down" → moveDownDisabled k = false → target = k - 1).
Proof.
  intros [Hlt Hnd] N target e'.
  assert (∀ r a, r ∈ annotations e → heap e !! r = Some a →
                 ann_layer a = Some k →
                 heap e' !! r = Some (set_layer (Some target) a)) as Hin.
  { intros r a Hr Ha Hl. subst e'. rewrite handleMoveLayer_heap.
    rewrite forEach_lookup_in.
    - rewrite Ha. simpl. f_equal. unfold moveOne, target, N.
      rewrite layerList_length, Hl. by case_decide.
    - by apply NoDup_filter.
    - apply list_elem_of_filter. split; [|done].
      unfold layer_of. by rewrite Ha. }
  assert (∀ r, ¬ (r ∈ annotations e ∧ layer_of (heap e) r = Some k) →
               heap e' !! r = heap e !! r) as Hout.
  { intros r Hr. subst e'. rewrite handleMoveLayer_heap.
    apply forEach_lookup_notin. rewrite list_elem_of_filter. tauto. }
  assert (target = k → e' = e) as Hsame.
  { intros Ht. subst e'. rewrite handleMoveLayer_unfold.
    assert (heap (handleMoveLayer k direction e) = heap e) as ->.
    { apply list_eq. intros r.
      destruct (decide (r ∈ annotations e ∧ layer_of (heap e) r = Some k))
        as [[Hr Hl]|Hr]; [|by apply Hout].
      unfold layer_of in Hl. destruct (heap e !! r) as [a|] eqn:Ha; [|done].
      simpl in Hl. rewrite (Hin r a Hr Ha Hl), Ht. f_equal.
      by apply set_layer_same. }
    by destruct e. }
  split_and!; try done.
  - intros -> ->. apply Hsame. unfold target.
    rewrite decide_False by done. lia.
  - intros -> Hen. unfold moveUpDisabled in Hen.
    apply bool_decide_eq_false in Hen. rewrite layerList_length in Hen.
    unfold target, N. rewrite decide_True by done. lia.
  - intros -> Hen. unfold moveDownDisabled in Hen.
    apply bool_decide_eq_false in Hen.
    unfold target. rewrite decide_False by done. lia.
Qed.

Lemma handleMoveLayer_spec_witness :
  let N :=
    Z.of_nat (length (remove_dups
                        (layerKeys (heap mockEditor) (annotations mockEditor)))) in
  let target := if decide ("up" = "up") then Z.min (1 + 1) N else Z.max (1 - 1) 0 in
  let e' := handleMoveLayer 1 "up" mockEditor in
  annotations e' = annotations mockEditor
  ∧ history e' = history mockEditor
  ∧ historyIndex e' = historyIndex mockEditor
  ∧ (∀ r a, r ∈ annotations mockEditor → heap mockEditor !! r = Some a →
            ann_layer a = Some 1 →
            heap e' !! r = Some (set_layer (Some target) a))
  ∧ (∀ r, ¬ (r ∈ annotations mockEditor
             ∧ layer_of (heap mockEditor) r = Some 1) →
          heap e' !! r = heap mockEditor !! r)
  ∧ (target = 1 → e' = mockEditor)
  ∧ (1 = 0 → "up" = "down" → e' = mockEditor)
  ∧ ("up" = "up" → moveUpDisabled mockEditor 1 = false → target = 1 + 1)
  ∧ ("up" = "down" → moveDownDisabled 1 = false → target = 1 - 1).
Proof.
  apply (handleMoveLayer_spec 1 "up" mockEditor).
  unfold wfRefs. apply (bool_decide_unpack _). vm_compute. exact I.
Defined.

(** C7, as stated, fails.  After the two commits (an image on layer 0, a
    signature without layer) deleting layer 1 matches nothing and deleting
    layer 0 removes the image;
    neither pushes a snapshot.  An undo after the deletion of layer 0
    installs the snapshot before the cursor, which is not the annotation set
    the deletion started from, and a redo after it brings the deleted
    annotation back. *)
Lemma deleteLayer_pushes_nothing :
  let e := afterTwoCommits.2 in
  annotations e = [0; 1]%nat
  ∧ history e = [[0]; [0; 1]]%nat
  ∧ handleDeleteLayer 1 e = e
  ∧ history (handleDeleteLayer 1 e)
    ≠ history (addToHistory (annotations (handleDeleteLayer 1 e)) e)
  ∧ annotations (handleDeleteLayer 0 e) = [1]%nat
  ∧ history (handleDeleteLayer 0 e) = history e
  ∧ historyIndex (handleDeleteLayer 0 e) = historyIndex e
  ∧ annotations <$> handleUndo (handleDeleteLayer 0 e) = Some [0]%nat
  ∧ handleUndo (handleDeleteLayer 0 e) ≫= handleRedo = Some e.
Proof.
  split_and!; try (vm_compute; reflexivity).
  vm_compute. discriminate.
Qed.

(** C7 (amended).  [handleDeleteLayer] removes from the annotation set
    exactly the annotations whose [layer] is the key, keeps the others in
    their order and leaves every object as it was; when no annotation
    matches, the whole state is unchanged.  In every case the history and
    its cursor are left as they were: no snapshot is pushed. *)
Theorem handleDeleteLayer_spec (k : Z) (e : Editor) :
  let e' := handleDeleteLayer k e in
  (∀ r, r ∈ annotations e'
        ↔ r ∈ annotations e ∧ layer_of (heap e) r ≠ Some k)
  ∧ annotations e' `sublist_of` annotations e
  ∧ heap e' = heap e
  ∧ ((∀ r, r ∈ annotations e → layer_of (heap e) r ≠ Some k) → e' = e)
  ∧ history e' = history e
  ∧ historyIndex e' = historyIndex e.
Proof.
  simpl. split_and!; try done.
  - intros r. rewrite list_elem_of_filter. tauto.
  - apply sublist_filter.
  - intros Hnone. unfold handleDeleteLayer.
    assert (filter (λ r, layer_of (heap e) r ≠ Some k) (annotations e)
            = annotations e) as ->; [|by destruct e].
    induction (annotations e) as [|r rs IH]; [done|].
    rewrite filter_cons, decide_True.
    + f_equal. apply IH. intros r' Hr'. apply Hnone. by right.
    + apply Hnone. by left.
Qed.

Lemma handleDeleteLayer_spec_witness :
  handleDeleteLayer 1 afterTwoCommits.2 = afterTwoCommits.2.
Proof.
  apply (handleDeleteLayer_spec 1 afterTwoCommits.2).
  intros r Hr. revert r Hr. apply Forall_forall.
  apply (bool_decide_unpack _). vm_compute. exact I.
Defined.

(** ** Claims on the identifiers *)

(** C9, as stated, fails: committed at the same clock reading, the image
    and the signature carry the same id. *)
Lemma same_tick_same_id :
  run sameTick initialSession = Some afterSameTick
  ∧ ann_type <$> annotationsProp afterSameTick.2 = ["image"; "signature"]
  ∧ storeIds afterSameTick.2 = [1000; 1000]
  ∧ ¬ NoDup (storeIds afterSameTick.2).
Proof.
  split_and!; try (vm_compute; reflexivity).
  intros Hnd. apply NoDup_cons in Hnd as [Hnotin _]. apply Hnotin.
  vm_compute. by left.
Qed.

(** C9 (amended).  A commit gives the new annotation the clock reading
    ([Date.now()]) as id.  In a session whose commits were made at pairwise
    distinct clock readings, the annotations of the store have pairwise
    distinct ids.  No event changes the id of an object: whatever follows,
    an object keeps the id it was given. *)
Theorem ids_follow_the_clock :
  (∀ now d e,
     ann_id <$> heap (handleAddAnnotation now d e) !! length (heap e) = Some now
     ∧ ann_id <$> heap (handleAddSignature now d e) !! length (heap e)
       = Some now)
  ∧ (∀ evs s,
       run evs initialSession = Some s →
       NoDup (commitTimes evs initialSession) →
       NoDup (storeIds s.2))
  ∧ (∀ evs s s' r a,
       run evs s = Some s' →
       heap s.2 !! r = Some a →
       ∃ a', heap s'.2 !! r = Some a' ∧ ann_id a' = ann_id a).
Proof.
  split_and!.
  - intros now d e. split; simpl;
      by rewrite lookup_app_r, Nat.sub_diag by lia.
  - intros evs s Hrun Hnd.
    pose proof (heapIds_run _ _ _ Hrun) as Hids. simpl in Hids.
    eapply wfStore_run in Hrun; [|apply wfStore_initial].
    apply storeIds_NoDup; [apply Hrun|]. by rewrite Hids.
  - intros evs s s' r a Hrun Ha.
    pose proof (heapIds_run _ _ _ Hrun) as Hids.
    assert (heapIds s'.2 !! r = Some (ann_id a)) as Hr.
    { rewrite Hids. apply lookup_app_l_Some.
      unfold heapIds. by rewrite list_lookup_fmap, Ha. }
    unfold heapIds in Hr. rewrite list_lookup_fmap in Hr.
    destruct (heap s'.2 !! r) as [a'|]; simplify_eq/=. eauto.
Qed.

Lemma ids_follow_the_clock_witness :
  NoDup (storeIds afterTwoCommits.2).
Proof.
  apply (proj1 (proj2 ids_follow_the_clock) twoCommits afterTwoCommits).
  - reflexivity.
  - apply (bool_decide_unpack _). vm_compute. exact I.
Defined.

(** ** Claims on the layer of a commit *)

(** In a session the [layers] list stays empty. *)
Lemma layers_stay_empty evs s :
  run evs initialSession = Some s → layers s.2 = [].
Proof.
  intros Hrun. eapply wfStore_run in Hrun; [|apply wfStore_initial].
  apply Hrun.
Qed.

(** An annotation committed through [handleAddAnnotation] is given the
    length of [layers] as layer, which is 0 throughout a session. *)
Lemma handleAddAnnotation_layer evs s now d :
  run evs initialSession = Some s →
  ann_layer <$> heap (handleAddAnnotation now d s.2) !! length (heap s.2)
  = Some (Some 0).
Proof.
  intros Hrun. simpl. rewrite lookup_app_r, Nat.sub_diag by lia. simpl.
  by rewrite (layers_stay_empty _ _ Hrun).
Qed.

(** C10.  A signature committed through [handleAddSignature] is given no
    [layer] field at all: placed in the initial session it is listed under
    layer 0 by the layer manager, but it is not at layer 0, and deleting
    layer 0 leaves it in the store. *)
Theorem signature_commit_has_no_layer :
  (∀ now d e,
     ann_layer <$> heap (handleAddSignature now d e) !! length (heap e)
     = Some None)
  ∧ let e := handleAddSignature 1000
               (signatureDraft (Some "data:image/png;base64,BBBB"))
               initialEditor in
    ann_layer <$> annotationsProp e = [None]
    ∧ index <$> layerList (heap e) (annotations e) = [0]
    ∧ handleDeleteLayer 0 e = e.
Proof.
  split.
  - intros now d e. simpl. by rewrite lookup_app_r, Nat.sub_diag by lia.
  - split_and!; vm_compute; reflexivity.
Qed.

(** ** Sessions under the enabled controls *)

Lemma flatLayers_keys e anns :
  flatLayers e → Forall (λ k, k = 0) (layerKeys (heap e) anns).
Proof.
  intros Hflat. unfold layerKeys. apply Forall_fmap, Forall_forall.
  intros r _. simpl. unfold layer_of.
  destruct (heap e !! r) as [a|] eqn:Ha; [|done].
  unfold flatLayers in Hflat. rewrite Forall_forall in Hflat. apply (Hflat a).
  by eapply list_elem_of_lookup_2.
Qed.

Lemma constant_NoDup_length (l : list Z) :
  Forall (λ k, k = 0) l → NoDup l → (length l ≤ 1)%nat.
Proof.
  destruct l as [|a [|b l]]; simpl; [lia..|].
  intros Hall Hnd. exfalso.
  apply Forall_cons in Hall as [-> Hall]. apply Forall_cons in Hall as [-> _].
  apply NoDup_cons in Hnd as [Hnotin _]. apply Hnotin. by left.
Qed.

(** With a single layer in use no move control is enabled. *)
Lemma flatLayers_no_move k direction s :
  flatLayers s.2 → ¬ controlEnabled (MoveLayer k direction) s.
Proof.
  intros Hflat [Hlisted Hen]. simpl in Hlisted.
  apply layerList_index in Hlisted.
  pose proof (flatLayers_keys _ (annotations s.2) Hflat) as Hkeys.
  rewrite Forall_forall in Hkeys. apply Hkeys in Hlisted as ->.
  destruct Hen as [[_ Hup]|[_ Hdown]].
  - unfold moveUpDisabled in Hup. apply bool_decide_eq_false in Hup.
    rewrite layerList_length in Hup.
    assert (length (remove_dups (layerKeys (heap s.2) (annotations s.2))) ≤ 1)%nat.
    { apply constant_NoDup_length; [|apply NoDup_remove_dups].
      apply Forall_forall. intros k Hk. rewrite elem_of_remove_dups in Hk.
      by apply Hkeys. }
    lia.
  - done.
Qed.

Lemma flatLayers_commit a e :
  layerKey a = 0 → flatLayers e → flatLayers (commitObject a e).
Proof.
  intros Ha Hflat. unfold flatLayers. simpl.
  apply Forall_app. split; [done|]. by apply Forall_singleton.
Qed.

Lemma flatLayers_move e ts e' :
  editorMove e ts e' → layers e = [] → flatLayers e → flatLayers e'.
Proof.
  destruct 1; intros Hl Hflat; try done.
  - rewrite handleAddAnnotation_commit. apply flatLayers_commit; [|done].
    by rewrite Hl.
  - rewrite handleAddSignature_commit. by apply flatLayers_commit.
  - unfold handleFileUpload. destruct file; [|done]. by repeat case_decide.
  - unfold handlePageChange. by repeat case_decide.
  - revert H. unfold handleUndo. case_decide; [|by intros [= <-]].
    destruct (js_index (history e) (historyIndex e - 1)); by intros [= <-].
  - revert H. unfold handleRedo. case_decide; [|by intros [= <-]].
    destruct (js_index (history e) (historyIndex e + 1)); by intros [= <-].
Qed.

Lemma flatLayers_step ev s s' :
  controlEnabled ev s → step ev s = Some s' →
  wfStore s.2 → flatLayers s.2 → flatLayers s'.2.
Proof.
  intros Hen Hstep Hwf Hflat.
  apply step_editorMove in Hstep
    as [(k & _ & -> & _)|[(k & d & -> & _ & _)|Hm]].
  - done.
  - by apply flatLayers_no_move in Hen.
  - eapply flatLayers_move; [done| |done]. apply Hwf.
Qed.

Lemma flatLayers_run evs s s' :
  guarded evs s → run evs s = Some s' →
  wfStore s.2 → flatLayers s.2 → flatLayers s'.2.
Proof.
  revert s. induction evs as [|ev evs IH]; intros s; simpl.
  - by intros _ [= <-].
  - intros [Hen Hg]. destruct (step ev s) as [s1|] eqn:Hstep; simpl; [|done].
    intros Hrun Hwf Hflat. eapply IH; [done..| |].
    + by eapply wfStore_step.
    + by eapply flatLayers_step.
Qed.

Lemma flatLayers_ascending e (l : list Annotation) :
  flatLayers e → l ⊆ heap e → layerAscending l.
Proof.
  intros Hflat Hsub. unfold layerAscending.
  unfold flatLayers in Hflat. rewrite Forall_forall in Hflat.
  induction l as [|a l IH]; constructor.
  - apply IH. intros b Hb. apply Hsub. by right.
  - apply Forall_forall. intros b Hb.
    rewrite (Hflat a), (Hflat b); [done| |].
    + apply Hsub. by right.
    + apply Hsub. by left.
Qed.

(** In a session driven through the enabled controls every annotation is
    filed under layer 0: no move control is ever enabled, and the insertion
    order in which the page is drawn is also an ascending layer order. *)
Lemma session_layers_flat evs s :
  guarded evs initialSession → run evs initialSession = Some s →
  flatLayers s.2
  ∧ (∀ k direction, ¬ controlEnabled (MoveLayer k direction) s)
  ∧ layerAscending (drawnAnnotations s.2).
Proof.
  intros Hg Hrun.
  assert (flatLayers s.2) as Hflat.
  { eapply flatLayers_run; [done..|apply wfStore_initial|constructor]. }
  split_and!; [done| |].
  - intros k d. by apply flatLayers_no_move.
  - eapply flatLayers_ascending; [done|].
    intros a Ha. unfold drawnAnnotations, pageAnnotations in Ha.
    apply list_elem_of_filter in Ha as [_ Ha].
    apply list_elem_of_omap in Ha as (r & _ & Hr).
    by eapply list_elem_of_lookup_2.
Qed.

Lemma oneRectangle_guarded : guarded oneRectangle initialSession.
Proof.
  simpl. split_and!; try done.
  apply (bool_decide_unpack _). vm_compute. exact I.
Qed.

(** * Further properties of the code *)

(** ** Sessions: induction principles *)

Lemma run_invariant (I : Viewer * Editor → Prop) :
  (∀ ev s s', step ev s = Some s' → I s → I s') →
  ∀ evs s s', run evs s = Some s' → I s → I s'.
Proof.
  intros Hstep evs. induction evs as [|ev evs IH]; intros s s'; simpl.
  - by intros [= <-].
  - destruct (step ev s) as [s1|] eqn:Hs1; simpl; [|done].
    intros Hrun Hs. eapply IH; [done|]. by eapply Hstep.
Qed.

Lemma run_invariant_on (P : Event → Prop) (I : Viewer * Editor → Prop) :
  (∀ ev s s', P ev → step ev s = Some s' → I s → I s') →
  ∀ evs s s', Forall P evs → run evs s = Some s' → I s → I s'.
Proof.
  intros Hstep evs. induction evs as [|ev evs IH]; intros s s' HP; simpl.
  - by intros [= <-].
  - apply Forall_cons in HP as [Hev HP].
    destruct (step ev s) as [s1|] eqn:Hs1; simpl; [|done].
    intros Hrun Hs. eapply IH; [done..|]. by eapply Hstep.
Qed.

(** What undo and redo leave alone. *)
Lemma handleUndo_keeps e e' :
  handleUndo e = Some e' →
  heap e' = heap e ∧ currentPage e' = currentPage e
  ∧ totalPages e' = totalPages e ∧ zoomLevel e' = zoomLevel e
  ∧ selectedTool e' = selectedTool e ∧ layers e' = layers e
  ∧ history e' = history e.
Proof.
  unfold handleUndo. case_decide; [|by intros [= <-]].
  destruct (js_index (history e) (historyIndex e - 1)); by intros [= <-].
Qed.

Lemma handleRedo_keeps e e' :
  handleRedo e = Some e' →
  heap e' = heap e ∧ currentPage e' = currentPage e
  ∧ totalPages e' = totalPages e ∧ zoomLevel e' = zoomLevel e
  ∧ selectedTool e' = selectedTool e ∧ layers e' = layers e
  ∧ history e' = history e.
Proof.
  unfold handleRedo. case_decide; [|by intros [= <-]].
  destruct (js_index (history e) (historyIndex e + 1)); by intros [= <-].
Qed.

Lemma handleFileUpload_cases file e :
  handleFileUpload file e = e
  ∨ handleFileUpload file e
    = setHistoryIndex (-1)
        (setHistory [] (setLayers [] (setAnnotations []
          (setCurrentPage 1 e)))).
Proof.
  unfold handleFileUpload. destruct file; [|by left].
  repeat case_decide; auto.
Qed.

(** ** Zoom and page stay within their bounds *)

Lemma zoom_move e ts e' :
  editorMove e ts e' →
  (0.5 <= zoomLevel e <= 3)%Q → (0.5 <= zoomLevel e' <= 3)%Q.
Proof.
  destruct 1; intros Hz; try done.
  - destruct (handleFileUpload_cases file e) as [->| ->]; done.
  - simpl. split.
    + apply Q.min_glb; lra.
    + apply Q.le_min_r.
  - simpl. split.
    + apply Q.le_max_r.
    + apply Q.max_lub; lra.
  - unfold handlePageChange. by repeat case_decide.
  - apply handleUndo_keeps in H as (_ & _ & _ & -> & _). done.
  - apply handleRedo_keeps in H as (_ & _ & _ & -> & _). done.
Qed.

Lemma zoom_step ev s s' :
  step ev s = Some s' →
  (0.5 <= zoomLevel s.2 <= 3)%Q → (0.5 <= zoomLevel s'.2 <= 3)%Q.
Proof.
  intros Hstep Hz.
  apply step_editorMove in Hstep
    as [(k & _ & -> & _)|[(k & d & _ & -> & _)|Hm]]; [done|done|].
  by eapply zoom_move.
Qed.

(** X1.  Zoom stays in range.  [handleZoomIn] never goes above 3 and
    [handleZoomOut] never below 0.5, whatever the zoom was; from a zoom in
    [0.5, 3] both stay in that range, zooming in never zooms out, and at
    the upper limit zooming in has no effect.  In every session the zoom
    level lies in [0.5, 3]; in particular it is never 0, the divisor of
    [getCanvasCoordinates]. *)
Theorem zoom_stays_in_range :
  (∀ e, (zoomLevel (handleZoomIn e) <= 3)%Q
        ∧ (0.5 <= zoomLevel (handleZoomOut e))%Q)
  ∧ (∀ e, (zoomLevel e <= 3)%Q →
          (zoomLevel e <= zoomLevel (handleZoomIn e))%Q)
  ∧ (∀ e, (3 <= zoomLevel e)%Q → (zoomLevel (handleZoomIn e) == 3)%Q)
  ∧ (∀ e, (zoomLevel e <= 0.5)%Q → (zoomLevel (handleZoomOut e) == 0.5)%Q)
  ∧ (∀ evs s, run evs initialSession = Some s →
              (0.5 <= zoomLevel s.2 <= 3)%Q ∧ ¬ (zoomLevel s.2 == 0)%Q).
Proof.
  split_and!.
  - intros e. simpl. split; [apply Q.le_min_r | apply Q.le_max_r].
  - intros e He. simpl. apply Q.min_glb; lra.
  - intros e He. simpl. apply Q.min_r. lra.
  - intros e He. simpl. apply Q.max_r. lra.
  - intros evs s Hrun.
    assert (0.5 <= zoomLevel s.2 <= 3)%Q as Hz.
    { eapply (run_invariant (λ s, (0.5 <= zoomLevel s.2 <= 3)%Q));
        [apply zoom_step|done|]. simpl. lra. }
    split; [done|]. intros H0. rewrite H0 in Hz. lra.
Qed.

Lemma zoom_stays_in_range_witness :
  (zoomLevel (handleZoomIn (handleZoomIn initialEditor))
   <= zoomLevel (handleZoomIn (handleZoomIn (handleZoomIn initialEditor))))%Q.
Proof.
  apply (proj1 (proj2 zoom_stays_in_range)). vm_compute. discriminate.
Defined.







(** ** File upload *)

(** X3.  File upload.  Without a file, with a file above 100 MB or with a
    file that is not a PDF, [handleFileUpload] leaves the whole state as it
    was.  A PDF within the size limit empties the annotation set, the
    layers and the history and shows page 1, with the zoom and the tool
    kept: nothing is drawn, undo and redo are disabled and do nothing. *)
Theorem upload_rejects_or_resets :
  (∀ e, handleFileUpload None e = e)
  ∧ (∀ f e, file_size f > 100 * 1024 * 1024 ∨ file_type f ≠ "application/pdf" →
       handleFileUpload (Some f) e = e)
  ∧ (∀ f e, file_size f ≤ 100 * 1024 * 1024 →
       file_type f = "application/pdf" →
       let e' := handleFileUpload (Some f) e in
       annotations e' = [] ∧ history e' = [] ∧ historyIndex e' = -1
       ∧ layers e' = [] ∧ currentPage e' = 1
       ∧ zoomLevel e' = zoomLevel e ∧ selectedTool e' = selectedTool e
       ∧ project e' = []
       ∧ undoDisabled e' = true ∧ redoDisabled e' = true
       ∧ handleUndo e' = Some e' ∧ handleRedo e' = Some e').
Proof.
  split_and!.
  - done.
  - intros f e Hbad. unfold handleFileUpload.
    destruct (decide (file_size f > 100 * 1024 * 1024)); [done|].
    destruct Hbad as [?|?]; [done|]. by rewrite decide_True.
  - intros f e Hsize Htype. simpl. unfold handleFileUpload.
    rewrite decide_False by lia. rewrite decide_False by (by intros ?).
    split_and!; done.
Qed.

Lemma upload_rejects_or_resets_witness :
  annotations
    (handleFileUpload (Some (mkFile 2048 "application/pdf")) afterTwoCommits.2)
  = []
  ∧ handleFileUpload (Some (mkFile 2048 "image/png")) afterTwoCommits.2
    = afterTwoCommits.2.
Proof.
  split.
  - apply (proj2 (proj2 upload_rejects_or_resets)
             (mkFile 2048 "application/pdf") afterTwoCommits.2);
      [vm_compute; discriminate | reflexivity].
  - apply (proj1 (proj2 upload_rejects_or_resets)
             (mkFile 2048 "image/png") afterTwoCommits.2).
    right. discriminate.
Defined.

(** ** More on the history engine *)

Lemma commitObject_index a e :
  -1 ≤ historyIndex e < Z.of_nat (length (history e)) →
  historyIndex (commitObject a e) = historyIndex e + 1
  ∧ history (commitObject a e)
    = take (Z.to_nat (historyIndex e + 1)) (history e)
      ++ [annotations e ++ [length (heap e)]].
Proof.
  intros Hi. unfold commitObject.
  rewrite addToHistory_index, addToHistory_history. simpl.
  rewrite js_slice0_nonneg by lia. split; [|done].
  rewrite length_app, length_take. simpl. lia.
Qed.

Lemma storeSynced_move e ts e' :
  editorMove e ts e' → storeSynced e → storeSynced e'.
Proof.
  destruct 1; intros He; try done.
  - rewrite handleAddAnnotation_commit. left. unfold commitObject.
    by rewrite addToHistory_cursor.
  - rewrite handleAddSignature_commit. left. unfold commitObject.
    by rewrite addToHistory_cursor.
  - destruct (handleFileUpload_cases file e) as [->| ->]; [done|]. by right.
  - unfold handlePageChange. by repeat case_decide.
  - revert H. unfold handleUndo. case_decide; [|by intros [= <-]].
    destruct (js_index (history e) (historyIndex e - 1)) eqn:Hs;
      intros [= <-]. by left.
  - revert H. unfold handleRedo. case_decide; [|by intros [= <-]].
    destruct (js_index (history e) (historyIndex e + 1)) eqn:Hs;
      intros [= <-]. by left.
Qed.

Lemma historyChain_nil : historyChain [].
Proof. intros i j a b _ Ha. by rewrite lookup_nil in Ha. Qed.

Lemma historyChain_push h n anns r :
  historyChain h → (n ≤ length h)%nat → length anns = n →
  (n = 0%nat ∨ h !! (n - 1)%nat = Some anns) →
  historyChain (take n h ++ [anns ++ [r]]).
Proof.
  intros Hc Hn Hlen Hlast i j a b Hij Ha Hb.
  assert (length (take n h) = n) as Hl by (rewrite length_take; lia).
  destruct (decide (j < n)%nat) as [Hj|Hj].
  - rewrite lookup_app_l in Ha, Hb by lia.
    rewrite lookup_take_lt in Ha, Hb by lia. by eapply Hc.
  - assert (j = n) as ->.
    { apply lookup_lt_Some in Hb. rewrite length_app, Hl in Hb.
      simpl in Hb. lia. }
    rewrite lookup_app_r, Hl, Nat.sub_diag in Hb by lia.
    simpl in Hb. injection Hb as <-.
    split; [|rewrite length_app; simpl; lia].
    destruct (decide (i = n)) as [->|Hi].
    + rewrite lookup_app_r, Hl, Nat.sub_diag in Ha by lia.
      simpl in Ha. injection Ha as <-.
      rewrite take_ge; [done|]. rewrite length_app. simpl. lia.
    + rewrite lookup_app_l in Ha by lia.
      rewrite lookup_take_lt in Ha by lia.
      destruct Hlast as [->|Hlast]; [lia|].
      destruct (Hc i (n - 1)%nat a anns) as [-> _]; [lia|done|done|].
      rewrite take_app_le by lia. done.
Qed.

Lemma index_move e ts e' :
  editorMove e ts e' →
  -1 ≤ historyIndex e < Z.of_nat (length (history e)) →
  -1 ≤ historyIndex e' < Z.of_nat (length (history e')).
Proof.
  assert (∀ a, -1 ≤ historyIndex e < Z.of_nat (length (history e)) →
               -1 ≤ historyIndex (commitObject a e)
               < Z.of_nat (length (history (commitObject a e)))) as Hcommit.
  { intros a Hi. destruct (commitObject_index a e Hi) as [-> ->].
    rewrite length_app, length_take. simpl. lia. }
  destruct 1; intros Hi; try done.
  - rewrite handleAddAnnotation_commit. by apply Hcommit.
  - rewrite handleAddSignature_commit. by apply Hcommit.
  - destruct (handleFileUpload_cases file e) as [->| ->]; [done|].
    simpl. lia.
  - unfold handlePageChange. by repeat case_decide.
  - revert H. unfold handleUndo. case_decide; [|by intros [= <-]].
    destruct (js_index (history e) (historyIndex e - 1)); intros [= <-].
    simpl. lia.
  - revert H. unfold handleRedo. case_decide; [|by intros [= <-]].
    destruct (js_index (history e) (historyIndex e + 1)); intros [= <-].
    simpl. lia.
Qed.

Lemma historyChain_move_index e ts e' :
  editorMove e ts e' →
  -1 ≤ historyIndex e < Z.of_nat (length (history e)) →
  storeSynced e → historyChain (history e) →
  historyChain (history e').
Proof.
  assert (∀ a, -1 ≤ historyIndex e < Z.of_nat (length (history e)) →
               storeSynced e → historyChain (history e) →
               historyChain (history (commitObject a e))) as Hcommit.
  { intros a Hi Hs Hc.
    destruct (commitObject_index a e Hi) as [_ ->].
    apply historyChain_push; [done|lia| |].
    - destruct Hs as [Hs|(_ & Hh & ->)].
      + apply js_index_Some in Hs as [H0 Hs].
        destruct (Hc _ _ _ _ (le_n _) Hs Hs) as [_ ->]. lia.
      + rewrite Hh in Hi. simpl in *. lia.
    - destruct Hs as [Hs|(-> & _ & _)]; [|by left].
      apply js_index_Some in Hs as [H0 Hs]. right.
      by replace (Z.to_nat (historyIndex e + 1) - 1)%nat
        with (Z.to_nat (historyIndex e)) by lia. }
  destruct 1; intros Hi Hs Hc; try done.
  - rewrite handleAddAnnotation_commit. by apply Hcommit.
  - rewrite handleAddSignature_commit. by apply Hcommit.
  - destruct (handleFileUpload_cases file e) as [->| ->]; [done|].
    apply historyChain_nil.
  - unfold handlePageChange. by repeat case_decide.
  - apply handleUndo_keeps in H as (_ & _ & _ & _ & _ & _ & ->). done.
  - apply handleRedo_keeps in H as (_ & _ & _ & _ & _ & _ & ->). done.
Qed.

Lemma historyChain_move e ts e' :
  editorMove e ts e' →
  wfStore e → storeSynced e → historyChain (history e) →
  historyChain (history e').
Proof. intros Hm [Hi _ _ _]. by apply (historyChain_move_index e ts e'). Qed.

(** What a session without layer deletion keeps. *)
Lemma linear_session evs s :
  Forall notDeleteLayer evs → run evs initialSession = Some s →
  wfStore s.2 ∧ storeSynced s.2 ∧ historyChain (history s.2).
Proof.
  intros Hnd Hrun.
  eapply (run_invariant_on notDeleteLayer
            (λ s, wfStore s.2 ∧ storeSynced s.2 ∧ historyChain (history s.2)));
    [|done|done|].
  - clear. intros ev s s' Hev Hstep (Hwf & Hs & Hc).
    split; [by eapply wfStore_step|].
    apply step_editorMove in Hstep
      as [(k & -> & _)|[(k & d & _ & -> & _)|Hm]]; [done|done|].
    split; [by eapply storeSynced_move | by eapply historyChain_move].
  - split; [apply wfStore_initial|]. split; [by right|apply historyChain_nil].
Qed.

(** X4.  Redo boundary and redo/undo round trip.  With the cursor at the
    last snapshot (or an empty history) the redo control is disabled and
    [handleRedo] changes nothing.  In a session without layer deletion, a
    redo that is available moves the cursor one snapshot forward, and an
    undo issued right after it gives back the very state the redo started
    from. *)
Theorem redo_undo_roundtrip :
  (∀ e, Z.of_nat (length (history e)) - 1 ≤ historyIndex e →
        redoDisabled e = true ∧ handleRedo e = Some e)
  ∧ (∀ evs s,
       Forall notDeleteLayer evs →
       run evs initialSession = Some s →
       historyIndex s.2 < Z.of_nat (length (history s.2)) - 1 →
       redoDisabled s.2 = false
       ∧ ∃ r, handleRedo s.2 = Some r
              ∧ historyIndex r = historyIndex s.2 + 1
              ∧ js_index (history s.2) (historyIndex s.2 + 1)
                = Some (annotations r)
              ∧ handleUndo r = Some s.2).
Proof.
  split.
  - intros e He. split; [|by apply handleRedo_disabled].
    unfold redoDisabled. apply bool_decide_eq_true. lia.
  - intros evs s Hnd Hrun Hlt.
    destruct (linear_session _ _ Hnd Hrun) as ([Hi _ _ _] & Hs & _).
    split; [unfold redoDisabled; apply bool_decide_eq_false; lia|].
    destruct Hs as [Hs|(Hi' & Hh & _)];
      [|rewrite Hh in Hlt; simpl in Hlt; lia].
    pose proof Hs as Hs'. apply js_index_Some in Hs' as [H0 _].
    destruct (lookup_lt_is_Some_2 (history s.2)
                (Z.to_nat (historyIndex s.2 + 1))) as [snap Hsnap]; [lia|].
    assert (js_index (history s.2) (historyIndex s.2 + 1) = Some snap) as Hj.
    { apply js_index_Some. split; [lia|done]. }
    exists (setAnnotations snap (setHistoryIndex (historyIndex s.2 + 1) s.2)).
    split_and!; [by apply handleRedo_enabled|done|done|].
    rewrite (handleUndo_enabled _ (annotations s.2)); simpl.
    + replace (historyIndex s.2 + 1 - 1) with (historyIndex s.2) by lia.
      by destruct s.2.
    + lia.
    + replace (historyIndex s.2 + 1 - 1) with (historyIndex s.2) by lia.
      by apply js_index_Some in Hs as [_ ?].
Qed.

(** Two commits, then an undo. *)
Lemma redo_undo_roundtrip_witness :
  redoDisabled
    (default initialSession (run (twoCommits ++ [Undo]) initialSession)).2
  = false.
Proof.
  apply (proj2 redo_undo_roundtrip (twoCommits ++ [Undo])).
  - repeat constructor.
  - reflexivity.
  - vm_compute. reflexivity.
Defined.

(** Allocating an object does not change what allocated references
    denote. *)
Lemma deref_alloc (h : list Annotation) a (rs : list Ref) :
  Forall (λ r, (r < length h)%nat) rs →
  omap (λ r, (h ++ [a]) !! r) rs = omap (λ r, h !! r) rs.
Proof.
  induction 1 as [|r rs Hr Hrs IH]; [done|].
  simpl. rewrite lookup_app_l by done.
  destruct (h !! r); [f_equal|]; exact IH.
Qed.

Lemma commit_then_undo_object a e :
  -1 ≤ historyIndex e < Z.of_nat (length (history e)) →
  let c := commitObject a e in
  (0 ≤ historyIndex e →
     ∃ u, handleUndo c = Some u
          ∧ historyIndex u = historyIndex e
          ∧ js_index (history e) (historyIndex e) = Some (annotations u)
          ∧ heap u = heap e ++ [a]
          ∧ currentPage u = currentPage e ∧ zoomLevel u = zoomLevel e
          ∧ redoDisabled u = false
          ∧ handleRedo u = Some c)
  ∧ (historyIndex e = -1 →
       undoDisabled c = true ∧ handleUndo c = Some c
       ∧ annotations c = annotations e ++ [length (heap e)]).
Proof.
  intros Hi c.
  assert (annotations c = annotations e ++ [length (heap e)]) as Hca by done.
  assert (heap c = heap e ++ [a]) as Hcheap by done.
  assert (currentPage c = currentPage e) as Hcp by done.
  assert (zoomLevel c = zoomLevel e) as Hcz by done.
  destruct (commitObject_index a e Hi) as [Hci Hch]. fold c in Hci, Hch.
  clearbody c.
  assert (length (take (Z.to_nat (historyIndex e + 1)) (history e))
          = Z.to_nat (historyIndex e + 1)) as Hl.
  { rewrite length_take. lia. }
  split.
  - intros H0.
    destruct (lookup_lt_is_Some_2 (history e) (Z.to_nat (historyIndex e)))
      as [snap Hs]; [lia|].
    exists (setAnnotations snap (setHistoryIndex (historyIndex e) c)).
    assert (handleUndo c
            = Some (setAnnotations snap
                      (setHistoryIndex (historyIndex e) c))) as Hu.
    { rewrite (handleUndo_enabled _ snap).
      - by rewrite Hci, Z.add_simpl_r.
      - lia.
      - rewrite Hci, Z.add_simpl_r, Hch.
        rewrite lookup_app_l by lia. by rewrite lookup_take_lt by lia. }
    split_and!; try done.
    + apply js_index_Some. split; [lia|done].
    + unfold redoDisabled. apply bool_decide_eq_false. simpl.
      rewrite Hch, length_app, Hl. simpl. lia.
    + rewrite (handleRedo_enabled _ (annotations c)); simpl.
      * rewrite <- Hci. by destruct c.
      * rewrite Hch, length_app, Hl. simpl. lia.
      * apply js_index_Some. split; [lia|]. rewrite Hch.
        rewrite lookup_app_r by lia. rewrite Hl.
        replace (Z.to_nat (historyIndex e + 1) - Z.to_nat (historyIndex e + 1))%nat
          with 0%nat by lia.
        simpl. by rewrite Hca.
  - intros Hm1. split_and!.
    + unfold undoDisabled. apply bool_decide_eq_true. lia.
    + apply handleUndo_disabled. lia.
    + done.
Qed.

(** X5.  Commit, then undo.  Let the cursor be within the history and
    not before its first snapshot.  An undo issued right after a commit
    installs the snapshot that was under the cursor before the commit and
    puts the cursor back, and a redo then gives back the committed state.
    The undo restores the annotation set, and with it the drawing, of
    before the commit exactly when that set was the snapshot under the
    cursor, as it is after a commit, an undo or a redo.
    The exception is the first commit on an empty history
    ([historyIndex = -1]): it leaves the cursor at 0, where undo is
    disabled, so the first annotation cannot be undone. *)
Theorem commit_then_undo (now : Z) (d : Draft) (e : Editor) :
  -1 ≤ historyIndex e < Z.of_nat (length (history e)) →
  wfRefs (heap e) (annotations e) →
  let c := handleAddAnnotation now d e in
  (0 ≤ historyIndex e →
     ∃ u, handleUndo c = Some u
          ∧ historyIndex u = historyIndex e
          ∧ js_index (history e) (historyIndex e) = Some (annotations u)
          ∧ redoDisabled u = false
          ∧ handleRedo u = Some c
          ∧ (annotations u = annotations e
             ↔ js_index (history e) (historyIndex e) = Some (annotations e))
          ∧ (annotations u = annotations e → project u = project e))
  ∧ (historyIndex e = -1 →
       undoDisabled c = true ∧ handleUndo c = Some c
       ∧ annotations c = annotations e ++ [length (heap e)]).
Proof.
  intros Hi Hwf c.
  unfold c. rewrite handleAddAnnotation_commit.
  destruct (commit_then_undo_object
              (spread d now (currentPage e)
                 (Some (Z.of_nat (length (layers e))))) e Hi)
    as [Hpos Hneg].
  split; [|done].
  intros H0.
  destruct (Hpos H0) as (u & Hu & Hui & Hs & Hh & Hp & Hz & Hr & Hre).
  exists u. split_and!; try done.
  - rewrite Hs. split; [by intros ->|by intros [= ->]].
  - intros Ha. unfold project, annotationsProp. rewrite Hp, Hz, Ha, Hh.
    rewrite deref_alloc; [done|]. apply Hwf.
Qed.

Lemma commit_then_undo_witness :
  ∃ u, handleUndo (handleAddAnnotation 1002 narrowDraft afterTwoTexts.2)
       = Some u
       ∧ annotations u = annotations afterTwoTexts.2
       ∧ project u = project afterTwoTexts.2.
Proof.
  destruct (commit_then_undo 1002 narrowDraft afterTwoTexts.2)
    as [Hpos _].
  - vm_compute. split; [discriminate|reflexivity].
  - unfold wfRefs. apply (bool_decide_unpack _). vm_compute. exact I.
  - destruct Hpos as (u & Hu & _ & _ & _ & _ & Hiff & Hproj).
    + vm_compute. discriminate.
    + assert (annotations u = annotations afterTwoTexts.2) as Ha.
      { apply Hiff. reflexivity. }
      exists u. split; [exact Hu|]. split; [exact Ha|]. exact (Hproj Ha).
Defined.

(** X6.  Undo removes the last annotation.  Call the history linear when
    the cursor is within it, the annotation set is the snapshot under the
    cursor and each snapshot is the one before it plus one annotation.  It
    is linear in the initial state, and it stays linear under every handler
    of the editor called through the render it belongs to: a commit, a PDF
    upload, a zoom, page or tool change, an undo, a redo.  While it is
    linear the annotation set holds [historyIndex + 1] annotations, an
    available undo removes exactly the last annotation of the set and an
    available redo appends exactly one. *)
Theorem undo_removes_last_commit :
  linearHistory initialEditor
  ∧ (∀ e ts e', linearHistory e → editorMove e ts e' → linearHistory e')
  ∧ (∀ e, linearHistory e →
       Z.of_nat (length (annotations e)) = historyIndex e + 1
       ∧ (0 < historyIndex e →
            ∃ u r, handleUndo e = Some u
                   ∧ annotations e = annotations u ++ [r])
       ∧ (historyIndex e < Z.of_nat (length (history e)) - 1 →
            ∃ u r, handleRedo e = Some u
                   ∧ annotations u = annotations e ++ [r])).
Proof.
  split_and!.
  - split_and!; [simpl; lia|simpl; lia|by right|apply historyChain_nil].
  - intros e ts e' (Hi & Hs & Hc) Hm. split_and!.
    + by apply (index_move e ts e').
    + by apply (index_move e ts e').
    + by apply (storeSynced_move e ts e').
    + by apply (historyChain_move_index e ts e').
  - intros e (Hi & Hs & Hc).
    assert (∀ i a b, history e !! i = Some a → history e !! S i = Some b →
                     ∃ r, b = a ++ [r]) as Hnext.
    { intros i a b Ha Hb.
      destruct (Hc i (S i) a b) as [-> Hlen]; [lia|done|done|].
      destruct (lookup_lt_is_Some_2 b (S i)) as [r Hr]; [lia|].
      exists r. rewrite <- (take_drop (S i) b) at 1. f_equal.
      rewrite (drop_S _ r) by done. rewrite drop_ge by lia. done. }
    split_and!.
    + destruct Hs as [Hs|(-> & _ & ->)]; [|done].
      apply js_index_Some in Hs as [H0 Hs].
      destruct (Hc _ _ _ _ (le_n _) Hs Hs) as [_ ->]. lia.
    + intros Hpos. destruct Hs as [Hs|(? & _)]; [|lia].
      apply js_index_Some in Hs as [_ Hs].
      destruct (lookup_lt_is_Some_2 (history e)
                  (Z.to_nat (historyIndex e - 1))) as [snap Hsnap]; [lia|].
      destruct (Hnext _ snap (annotations e) Hsnap) as [r Hr].
      { by replace (S (Z.to_nat (historyIndex e - 1)))
          with (Z.to_nat (historyIndex e)) by lia. }
      eexists _, r. split; [by apply handleUndo_enabled|done].
    + intros Hlt. destruct Hs as [Hs|(? & Hh & _)];
        [|rewrite Hh in Hlt; simpl in Hlt; lia].
      apply js_index_Some in Hs as [H0 Hs].
      destruct (lookup_lt_is_Some_2 (history e)
                  (Z.to_nat (historyIndex e + 1))) as [snap Hsnap]; [lia|].
      destruct (Hnext _ (annotations e) snap Hs) as [r Hr].
      { by replace (S (Z.to_nat (historyIndex e)))
          with (Z.to_nat (historyIndex e + 1)) by lia. }
      exists (setAnnotations snap (setHistoryIndex (historyIndex e + 1) e)), r.
      split; [|done].
      apply handleRedo_enabled; [done|]. apply js_index_Some.
      split; [lia|done].
Qed.

Lemma undo_removes_last_commit_witness :
  linearHistory (handleAddAnnotation 1001 narrowDraft
                   (handleAddAnnotation 1000 narrowDraft initialEditor))
  ∧ ∃ u r,
      handleUndo (handleAddAnnotation 1001 narrowDraft
                    (handleAddAnnotation 1000 narrowDraft initialEditor))
      = Some u
      ∧ annotations (handleAddAnnotation 1001 narrowDraft
                       (handleAddAnnotation 1000 narrowDraft initialEditor))
        = annotations u ++ [r].
Proof.
  destruct undo_removes_last_commit as (Hinit & Hkeep & Huse).
  assert (linearHistory (handleAddAnnotation 1001 narrowDraft
                           (handleAddAnnotation 1000 narrowDraft initialEditor)))
    as Hlin.
  { apply (Hkeep (handleAddAnnotation 1000 narrowDraft initialEditor) [1001]).
    - apply (Hkeep initialEditor [1000]); [exact Hinit|].
      apply move_annotation.
    - apply move_annotation. }
  split; [exact Hlin|].
  apply (Huse _ Hlin). vm_compute. reflexivity.
Defined.

Lemma snapshots_nonempty_move e ts e' :
  editorMove e ts e' →
  Forall (λ snap, snap ≠ []) (history e) →
  Forall (λ snap, snap ≠ []) (history e').
Proof.
  assert (∀ a, Forall (λ snap, snap ≠ []) (history e) →
               Forall (λ snap, snap ≠ []) (history (commitObject a e)))
    as Hcommit.
  { intros a Hne. unfold commitObject. rewrite addToHistory_history. simpl.
    apply Forall_app. split; [by apply js_slice0_Forall|].
    apply Forall_singleton. by destruct (annotations e). }
  destruct 1; intros Hne; try done.
  - rewrite handleAddAnnotation_commit. by apply Hcommit.
  - rewrite handleAddSignature_commit. by apply Hcommit.
  - destruct (handleFileUpload_cases file e) as [->| ->]; [done|].
    constructor.
  - unfold handlePageChange. by repeat case_decide.
  - apply handleUndo_keeps in H as (_ & _ & _ & _ & _ & _ & ->). done.
  - apply handleRedo_keeps in H as (_ & _ & _ & _ & _ & _ & ->). done.
Qed.

Lemma snapshots_nonempty_step ev s s' :
  step ev s = Some s' →
  Forall (λ snap, snap ≠ []) (history s.2) →
  Forall (λ snap, snap ≠ []) (history s'.2).
Proof.
  intros Hstep Hne.
  apply step_editorMove in Hstep
    as [(k & _ & -> & _)|[(k & d & _ & -> & _)|Hm]]; [done|done|].
  by eapply snapshots_nonempty_move.
Qed.

(** X7.  Undo never empties the page.  In every session each snapshot
    of the history holds at least one annotation, so an undo or a redo that
    takes effect installs a non-empty annotation set: the empty page is
    never among the states undo can reach. *)
Theorem undo_never_empties (evs : list Event) (s : Viewer * Editor) :
  run evs initialSession = Some s →
  Forall (λ snap, snap ≠ []) (history s.2)
  ∧ (∀ u, 0 < historyIndex s.2 → handleUndo s.2 = Some u →
          annotations u ≠ [])
  ∧ (∀ u, historyIndex s.2 < Z.of_nat (length (history s.2)) - 1 →
          handleRedo s.2 = Some u → annotations u ≠ []).
Proof.
  intros Hrun.
  assert (Forall (λ snap, snap ≠ []) (history s.2)) as Hne.
  { eapply (run_invariant
              (λ s, Forall (λ snap, snap ≠ []) (history s.2)));
      [apply snapshots_nonempty_step|done|constructor]. }
  rewrite Forall_forall in Hne.
  split_and!; [by apply Forall_forall| |].
  - intros u Hpos. unfold handleUndo. rewrite decide_True by lia.
    destruct (js_index (history s.2) (historyIndex s.2 - 1)) as [snap|] eqn:Hs;
      [|done].
    intros [= <-]. simpl. apply Hne.
    apply js_index_Some in Hs as [_ Hs]. by eapply list_elem_of_lookup_2.
  - intros u Hlt. unfold handleRedo. rewrite decide_True by lia.
    destruct (js_index (history s.2) (historyIndex s.2 + 1)) as [snap|] eqn:Hs;
      [|done].
    intros [= <-]. simpl. apply Hne.
    apply js_index_Some in Hs as [_ Hs]. by eapply list_elem_of_lookup_2.
Qed.

Lemma undo_never_empties_witness :
  Forall (λ snap, snap ≠ []) (history afterTwoCommits.2).
Proof.
  apply (undo_never_empties twoCommits afterTwoCommits). reflexivity.
Defined.

(** ** More on the pointer gestures *)






Lemma inert_step ev v e :
  selectedTool e ∉ "text" :: shapeTools →
  currentAnnotation v = None → isMouseEvent ev →
  ∃ v', step ev (v, e) = Some (v', e) ∧ currentAnnotation v' = None.
Proof.
  intros Htool Hcur Hev.
  assert (selectedTool e ≠ "text") as Hnt.
  { intros Heq. apply Htool. rewrite Heq. by left. }
  assert (selectedTool e ∉ shapeTools) as Hns.
  { intros Hin. apply Htool. by right. }
  destruct ev; try done; simpl.
  - unfold handleMouseDown. case_decide; [by eexists|].
    rewrite decide_False by done. by eexists.
  - unfold handleMouseMove.
    destruct (isDrawing v), (startPoint v); try by eexists.
    rewrite bool_decide_eq_false_2 by done. by eexists.
  - unfold handleMouseUp. rewrite Hcur.
    destruct (isDrawing v); by eexists.
Qed.

(** X9.  Tools that do not draw.  With a tool other than the text tool and
    the four shape tools selected (the select and free-hand tools, for
    one) and no drag preview pending, no sequence of pointer events on the
    canvas changes the editor: nothing is committed and no preview is
    built. *)
Theorem other_tools_commit_nothing (evs : list Event) (v : Viewer)
  (e : Editor) :
  selectedTool e ∉ "text" :: shapeTools →
  currentAnnotation v = None →
  Forall isMouseEvent evs →
  ∃ v', run evs (v, e) = Some (v', e) ∧ currentAnnotation v' = None.
Proof.
  intros Htool. revert v. induction evs as [|ev evs IH]; intros v Hcur Hevs.
  - by exists v.
  - apply Forall_cons in Hevs as [Hev Hevs].
    destruct (inert_step ev v e Htool Hcur Hev) as (v1 & Hstep & Hcur1).
    destruct (IH v1 Hcur1 Hevs) as (v' & Hrun & Hcur').
    exists v'. simpl. rewrite Hstep. simpl. done.
Qed.

Lemma other_tools_commit_nothing_witness :
  ∃ v', run [MouseDown (mkMouseEvent 10 10 0 0) None 0;
             MouseMove (mkMouseEvent 110 90 0 0); MouseUp 7]
          (initialViewer, handleToolSelect "freehand" initialEditor)
        = Some (v', handleToolSelect "freehand" initialEditor)
        ∧ currentAnnotation v' = None.
Proof.
  apply other_tools_commit_nothing.
  - apply (bool_decide_unpack _). vm_compute. exact I.
  - reflexivity.
  - repeat constructor.
Defined.

(** X10.  The text tool.  A pointer-down with the text tool never starts
    a drag.  When the prompt is cancelled or left empty the editor is
    unchanged.  Otherwise one text annotation is committed, at the canvas
    point of the click, and it is drawn as a single [fillText] of the string
    typed, in black, at 14 times the zoom, at that point scaled by the
    zoom. *)
Theorem text_tool_places_text (event : MouseEvent) (p : option string)
  (now : Z) (v : Viewer) (e : Editor) :
  selectedTool e = "text" →
  let s' := handleMouseDown event p now (v, e) in
  let point := getCanvasCoordinates (zoomLevel e) event in
  isDrawing s'.1 = false
  ∧ (p = None ∨ p = Some "" → s'.2 = e)
  ∧ (∀ str, p = Some str → str ≠ "" →
       s'.2 = handleAddAnnotation now (textDraft point str) e
       ∧ annotations s'.2 = annotations e ++ [length (heap e)]
       ∧ ∃ a,
           heap s'.2 !! length (heap e) = Some a
           ∧ ann_x a = pt_x point ∧ ann_y a = pt_y point
           ∧ ann_page a = currentPage e
           ∧ drawAnnotation (zoomLevel e) a
             = [FillText "#000" (14 * zoomLevel e) str
                  (pt_x point * zoomLevel e) (pt_y point * zoomLevel e)]).
Proof.
  intros Htool s' point. subst s'. unfold handleMouseDown.
  rewrite decide_False by (rewrite Htool; done).
  rewrite decide_True by done. fold point. cbn [fst snd isDrawing].
  split_and!; [done| |].
  - intros [->| ->]; [done|]. by rewrite decide_True.
  - intros str -> Hne. rewrite decide_False by done.
    split_and!; [done|done|].
    eexists. split_and!.
    + simpl. by rewrite lookup_app_r, Nat.sub_diag by lia.
    + done.
    + done.
    + done.
    + unfold drawAnnotation. simpl.
      rewrite decide_False by done. reflexivity.
Qed.

Lemma text_tool_places_text_witness :
  (handleMouseDown (mkMouseEvent 10 10 0 0) None 5
     (initialViewer, handleToolSelect "text" initialEditor)).2
  = handleToolSelect "text" initialEditor.
Proof.
  apply (text_tool_places_text (mkMouseEvent 10 10 0 0) None 5 initialViewer
           (handleToolSelect "text" initialEditor)); [reflexivity|by left].
Defined.

(** ** The forms of the stored annotations *)

Lemma wellShaped_moveOne direction n a :
  wellShaped a → wellShaped (moveOne direction n a).
Proof. unfold moveOne. by case_decide. Qed.

Lemma wellShaped_forEach direction n rs h :
  Forall wellShaped h → Forall wellShaped (forEachMove direction n rs h).
Proof.
  revert h. induction rs as [|r rs IH]; intros h Hh; [done|].
  simpl. apply IH. apply Forall_alter; [done|].
  intros a _. apply wellShaped_moveOne.
Qed.

Lemma wellShaped_text now page layer point str :
  str ≠ "" → wellShaped (spread (textDraft point str) now page layer).
Proof. intros Hne. left. split_and!; try done. by exists str. Qed.

Lemma wellShaped_image now page layer data :
  wellShaped (spread (imageDraft data) now page layer).
Proof. right. right. left. split_and!; try done. by exists data. Qed.

Lemma wellShaped_signature now page layer data :
  wellShaped (spread (signatureDraft data) now page layer).
Proof. right. right. right. by split_and!. Qed.

Lemma wellShaped_commit a e :
  wellShaped a → Forall wellShaped (heap e) →
  Forall wellShaped (heap (commitObject a e)).
Proof.
  intros Ha Hh. simpl. apply Forall_app. split; [done|].
  by apply Forall_singleton.
Qed.

Lemma shaped_step ev s s' :
  step ev s = Some s' →
  draftShaped s.1 ∧ Forall wellShaped (heap s.2) →
  draftShaped s'.1 ∧ Forall wellShaped (heap s'.2).
Proof.
  destruct s as [v e]. intros Hstep [Hv Hh]. simpl in Hv, Hh.
  destruct ev; simpl in Hstep; unfold onEditor in Hstep; simpl in Hstep.
  - (* FileUpload *)
    injection Hstep as <-. split; [done|]. simpl.
    destruct (handleFileUpload_cases file e) as [->| ->]; done.
  - by injection Hstep as <-.
  - by injection Hstep as <-.
  - injection Hstep as <-. split; [done|]. simpl.
    unfold handlePageChange. by repeat case_decide.
  - by injection Hstep as <-.
  - (* MouseDown *)
    injection Hstep as <-. unfold handleMouseDown.
    destruct (decide (selectedTool e = "select")); [done|].
    destruct (decide (selectedTool e = "text")); [|done].
    split; [done|]. cbn [snd].
    destruct promptResult as [str|]; [|done].
    destruct (decide (str = "")); [done|].
    rewrite handleAddAnnotation_commit.
    apply wellShaped_commit; [|done]. by apply wellShaped_text.
  - (* MouseMove *)
    injection Hstep as <-. unfold handleMouseMove.
    destruct (isDrawing v), (startPoint v) as [start|]; try done.
    case_bool_decide as Htool; [|done].
    split; [|done]. intros d [= <-]. split_and!; try done.
    by eexists _, _.
  - (* MouseUp *)
    injection Hstep as <-. unfold handleMouseUp.
    destruct (isDrawing v), (currentAnnotation v) as [d|] eqn:Hd;
      try (split; [by intros d' [=]|done]).
    destruct (js_gt (d_width d) 5 && js_gt (d_height d) 5) eqn:Hgt;
      (split; [by intros d' [=]|]); [|done].
    cbn [snd]. rewrite handleAddAnnotation_commit.
    apply wellShaped_commit; [|done].
    apply andb_true_iff in Hgt as [Hw Hhh].
    apply js_gt_true in Hw as (w & Hw & Hw5).
    apply js_gt_true in Hhh as (h & Hhh & Hh5).
    destruct (Hv d Hd) as (Ht & Htext & Himg & _).
    right. left. split_and!; try done. by exists w, h.
  - (* ImageUpload *)
    injection Hstep as <-. split; [done|]. cbn [snd].
    rewrite handleAddAnnotation_commit.
    apply wellShaped_commit; [|done]. apply wellShaped_image.
  - (* UseSignature *)
    injection Hstep as <-. split; [done|]. cbn [snd].
    rewrite handleAddSignature_commit.
    apply wellShaped_commit; [|done]. apply wellShaped_signature.
  - (* Undo *)
    destruct (handleUndo e) as [e'|] eqn:Hu; simpl in Hstep; [|done].
    injection Hstep as <-. split; [done|]. simpl.
    by apply handleUndo_keeps in Hu as (-> & _).
  - (* Redo *)
    destruct (handleRedo e) as [e'|] eqn:Hu; simpl in Hstep; [|done].
    injection Hstep as <-. split; [done|]. simpl.
    by apply handleRedo_keeps in Hu as (-> & _).
  - (* MoveLayer *)
    injection Hstep as <-. split; [done|]. simpl.
    by apply wellShaped_forEach.
  - by injection Hstep as <-.
  - by injection Hstep as <-.
Qed.

(** X11.  The forms of the stored annotations.  In every session each
    object of the store, hence each annotation of the set and of every
    snapshot, is of one of four forms: a text without width and height and
    with a non-empty string; a rectangle, circle, highlight or arrow whose
    width and height both exceed 5; an image of 200 by 150 with its data; a
    signature of 200 by 100.  No other type is ever stored. *)
Theorem store_is_well_shaped (evs : list Event) (s : Viewer * Editor) :
  run evs initialSession = Some s →
  Forall wellShaped (heap s.2)
  ∧ Forall wellShaped (annotationsProp s.2)
  ∧ Forall (λ a, ann_type a ∈ ["text"; "image"; "signature"] ++ shapeTools)
           (heap s.2).
Proof.
  intros Hrun.
  assert (draftShaped s.1 ∧ Forall wellShaped (heap s.2)) as [_ Hh].
  { eapply (run_invariant
              (λ s, draftShaped s.1 ∧ Forall wellShaped (heap s.2)));
      [apply shaped_step|done|].
    split; [by intros d [=]|constructor]. }
  split_and!; [done| |].
  - rewrite Forall_forall in Hh. apply Forall_forall. intros a Ha.
    apply list_elem_of_omap in Ha as (r & _ & Hr).
    apply Hh. by eapply list_elem_of_lookup_2.
  - eapply Forall_impl; [done|]. simpl.
    intros a [(-> & _)|[(Ht & _)|[(-> & _)|(-> & _)]]].
    + by left.
    + by do 3 right.
    + right. by left.
    + do 2 right. by left.
Qed.

Lemma store_is_well_shaped_witness :
  Forall wellShaped (heap afterOneRectangle.2).
Proof.
  apply (store_is_well_shaped oneRectangle afterOneRectangle). reflexivity.
Defined.

(** ** More on the projection *)

Lemma annotationsProp_commit a e :
  wfRefs (heap e) (annotations e) →
  annotationsProp (commitObject a e) = annotationsProp e ++ [a].
Proof.
  intros [Hlt _]. unfold annotationsProp. simpl.
  rewrite omap_app, deref_alloc by done. f_equal. simpl.
  by rewrite lookup_app_r, Nat.sub_diag by lia.
Qed.

Lemma project_commit a e :
  wfRefs (heap e) (annotations e) → ann_page a = currentPage e →
  project (commitObject a e) = project e ++ drawAnnotation (zoomLevel e) a.
Proof.
  intros Hwf Hpage. unfold project. rewrite annotationsProp_commit by done.
  change (currentPage (commitObject a e)) with (currentPage e).
  change (zoomLevel (commitObject a e)) with (zoomLevel e).
  unfold drawAnnotations, pageAnnotations.
  rewrite filter_app, bind_app. f_equal.
  rewrite filter_cons, decide_True by done.
  rewrite filter_nil, bind_cons. simpl. by rewrite app_nil_r.
Qed.

(** X12.  A commit is painted over the shapes and under the signatures.
    In a store whose annotation set holds allocated references, the pass
    after a commit issues the operations of the pass before it, followed by
    those of the new annotation.  A new shape is therefore painted after
    every shape that was there, and before every signature image, also the
    images of the signatures placed before it: these are painted when they
    have loaded, after the pass.  A new signature adds its image to those
    painted after the shapes. *)
Theorem commit_is_painted_over_the_shapes (now : Z) (d : Draft) (e : Editor) :
  wfRefs (heap e) (annotations e) →
  let z := zoomLevel e in
  let new :=
    spread d now (currentPage e) (Some (Z.of_nat (length (layers e)))) in
  let sig := spread d now (currentPage e) None in
  project (handleAddAnnotation now d e) = project e ++ drawAnnotation z new
  ∧ project (handleAddSignature now d e) = project e ++ drawAnnotation z sig
  ∧ (d_type d ≠ "signature" →
       ∀ painted, paints (project (handleAddAnnotation now d e)) painted →
         ∃ late, late ⊆+ deferredCalls (project e)
                 ∧ painted
                   = immediateCalls (project e) ++ drawAnnotation z new ++ late)
  ∧ (d_type d = "signature" →
       ∀ painted, paints (project (handleAddSignature now d e)) painted →
         ∃ late, late ⊆+ deferredCalls (project e) ++ drawAnnotation z sig
                 ∧ painted = immediateCalls (project e) ++ late).
Proof.
  intros Hwf z new sig.
  assert (project (handleAddAnnotation now d e)
          = project e ++ drawAnnotation z new) as Hnew.
  { rewrite handleAddAnnotation_commit. by apply project_commit. }
  assert (project (handleAddSignature now d e)
          = project e ++ drawAnnotation z sig) as Hsig.
  { rewrite handleAddSignature_commit. by apply project_commit. }
  split_and!; [done|done| |].
  - intros Hty painted (late & Hlate & ->). rewrite Hnew in *.
    rewrite deferredCalls_app, deferredCalls_drawAnnotation in Hlate.
    rewrite immediateCalls_app, immediateCalls_drawAnnotation.
    change (ann_type new) with (d_type d) in *.
    rewrite decide_False in * by done. rewrite app_nil_r in Hlate.
    exists late. by rewrite <- app_assoc.
  - intros Hty painted (late & Hlate & ->). rewrite Hsig in *.
    rewrite deferredCalls_app, deferredCalls_drawAnnotation in Hlate.
    rewrite immediateCalls_app, immediateCalls_drawAnnotation.
    change (ann_type sig) with (d_type d) in *.
    rewrite decide_True in * by done. rewrite app_nil_r.
    by exists late.
Qed.

Lemma commit_is_painted_over_the_shapes_witness :
  project (handleAddAnnotation 1002 narrowDraft afterOneRectangle.2)
  = project afterOneRectangle.2
    ++ drawAnnotation (zoomLevel afterOneRectangle.2)
         (spread narrowDraft 1002 (currentPage afterOneRectangle.2)
            (Some (Z.of_nat (length (layers afterOneRectangle.2))))).
Proof.
  apply (commit_is_painted_over_the_shapes 1002 narrowDraft
           afterOneRectangle.2).
  unfold wfRefs. apply (bool_decide_unpack _). vm_compute. exact I.
Defined.

(** *** An image read late *)

Lemma handleAddAnnotationVia_fresh now d e :
  handleAddAnnotationVia e now d e = handleAddAnnotation now d e.
Proof. reflexivity. Qed.

(** The drawing after an object has been allocated and appended. *)
Lemma project_alloc e e' a :
  wfRefs (heap e) (annotations e) →
  heap e' = heap e ++ [a] →
  annotations e' = annotations e ++ [length (heap e)] →
  currentPage e' = currentPage e → zoomLevel e' = zoomLevel e →
  project e'
  = project e
    ++ (if decide (ann_page a = currentPage e)
        then drawAnnotation (zoomLevel e) a else []).
Proof.
  intros [Hlt _] Hh Ha Hp Hz. unfold project, annotationsProp.
  rewrite Hh, Ha, Hp, Hz, omap_app, deref_alloc by done. simpl.
  rewrite lookup_app_r, Nat.sub_diag by lia. simpl.
  unfold drawAnnotations, pageAnnotations.
  rewrite filter_app, bind_app. f_equal.
  rewrite filter_cons, filter_nil.
  case_decide; [|done]. rewrite bind_cons. simpl. by rewrite app_nil_r.
Qed.

(** X13.  Uploaded images are stored but never painted.
    [handleImageUpload] starts no read without a file, nor for a file whose
    type is not PNG, JPEG, SVG or GIF.  For a valid file it registers a
    callback which, once the file has been read, stores an image annotation
    of 200 by 150 at (100, 100): the image goes at the end of the annotation
    set of that moment, on the page that was shown when the file was picked.
    [drawAnnotation] has no case for the type ["image"], so the drawing is
    the one of before.  The snapshot pushed is the annotation set of the
    moment the file was picked, plus the image: it is the set installed
    exactly when the set has not changed in between, as when the read
    completes before anything else happens, where the callback is
    [handleAddAnnotation] itself. *)
Theorem image_upload_is_stored_not_drawn :
  (∀ c, handleImageUpload None c = None)
  ∧ (∀ f c, img_type f ∉ validTypes → handleImageUpload (Some f) c = None)
  ∧ (∀ zoom a, ann_type a = "image" → drawAnnotation zoom a = [])
  ∧ (∀ f c,
       img_type f ∈ validTypes →
       ∃ onload,
         handleImageUpload (Some f) c = Some onload
         ∧ (∀ result now,
              onload result now c
              = handleAddAnnotation now (imageDraft result) c)
         ∧ ∀ result now e,
             wfRefs (heap e) (annotations e) →
             let e' := onload result now e in
             annotations e' = annotations e ++ [length (heap e)]
             ∧ heap e' !! length (heap e)
               = Some (spread (imageDraft result) now (currentPage c)
                         (Some (Z.of_nat (length (layers c)))))
             ∧ project e' = project e
             ∧ history e'
               = js_slice0 (history c) (historyIndex c + 1)
                 ++ [annotations c ++ [length (heap e)]]
             ∧ js_index (history e') (historyIndex e')
               = Some (annotations c ++ [length (heap e)])
             ∧ (js_index (history e') (historyIndex e')
                = Some (annotations e')
                ↔ annotations c = annotations e)).
Proof.
  split_and!.
  - done.
  - intros f c Hbad. unfold handleImageUpload.
    by rewrite bool_decide_eq_false_2.
  - intros zoom a Ht. unfold drawAnnotation. rewrite Ht. done.
  - intros f c Hok. eexists. split_and!.
    + unfold handleImageUpload. by rewrite bool_decide_eq_true_2.
    + done.
    + intros result now e Hwf. cbn zeta.
      set (a := spread (imageDraft result) now (currentPage c)
                  (Some (Z.of_nat (length (layers c))))).
      set (e' := handleAddAnnotationVia c now (imageDraft result) e).
      assert (js_index (history e') (historyIndex e')
              = Some (annotations c ++ [length (heap e)])) as Hcur.
      { apply js_index_Some. simpl. rewrite length_app. simpl.
        split; [lia|].
        replace (Z.to_nat
                   (Z.of_nat
                      (length (js_slice0 (history c) (historyIndex c + 1)) + 1)
                    - 1))
          with (length (js_slice0 (history c) (historyIndex c + 1)) + 0)%nat
          by lia.
        by rewrite lookup_app_r, Nat.add_0_r, Nat.sub_diag by lia. }
      split_and!.
      * done.
      * simpl. by rewrite lookup_app_r, Nat.sub_diag by lia.
      * rewrite (project_alloc e e' a) by done.
        assert (drawAnnotation (zoomLevel e) a = []) as -> by done.
        case_decide; apply app_nil_r.
      * done.
      * done.
      * rewrite Hcur. split.
        -- intros [= Heq]. by apply app_inv_tail in Heq.
        -- by intros ->.
Qed.

Lemma image_upload_is_stored_not_drawn_witness :
  project lateImage = project afterTwoTexts.2.
Proof.
  destruct (proj2 (proj2 (proj2 image_upload_is_stored_not_drawn))
              (mkImageFile "logo.png" "image/png") afterOneText.2)
    as (onload & Hpick & _ & Hload).
  - apply (bool_decide_unpack _). vm_compute. exact I.
  - unfold lateImage. rewrite Hpick.
    apply (Hload "data:image/png;base64,AAAA" 1002 afterTwoTexts.2).
    unfold wfRefs. apply (bool_decide_unpack _). vm_compute. exact I.
Defined.

(** ** More on the layer manager *)

Lemma groupedAnnotations_snoc h anns r :
  groupedAnnotations h (anns ++ [r])
  = <[js_or_Z (layer_of h r) 0 :=
        default [] (groupedAnnotations h anns !! js_or_Z (layer_of h r) 0)
        ++ [r]]> (groupedAnnotations h anns).
Proof. unfold groupedAnnotations. by rewrite foldl_app. Qed.

(** The group of a key is the sub-array of the annotations filed under it. *)
Lemma groupedAnnotations_lookup h anns k :
  groupedAnnotations h anns !! k
  = (let g := filter (λ r, js_or_Z (layer_of h r) 0 = k) anns in
     if decide (g = []) then None else Some g).
Proof.
  induction anns as [|r anns IH] using rev_ind; [done|].
  rewrite groupedAnnotations_snoc. cbn zeta in *.
  rewrite filter_app.
  destruct (decide (js_or_Z (layer_of h r) 0 = k)) as [Heq|Hne].
  - rewrite filter_cons_True by exact Heq. rewrite filter_nil.
    rewrite Heq, lookup_insert_eq.
    rewrite decide_False by (by intros [_ ?]%app_eq_nil).
    rewrite IH. f_equal. by case_decide as Hg; [rewrite Hg|].
  - rewrite filter_cons_False by exact Hne. rewrite filter_nil.
    rewrite lookup_insert_ne by done. by rewrite IH, app_nil_r.
Qed.

Lemma layers_partition_the_store_aux h anns l :
  l ∈ layerList h anns →
  entry_annotations l
  = filter (λ r, js_or_Z (layer_of h r) 0 = index l) anns
  ∧ entry_annotations l ≠ [].
Proof.
  intros Hl. unfold layerList in Hl.
  apply list_elem_of_fmap in Hl as ([k g] & -> & Hkg). simpl.
  apply elem_of_map_to_list in Hkg.
  rewrite groupedAnnotations_lookup in Hkg. cbn zeta in Hkg.
  case_decide; [done|]. by injection Hkg as <-.
Qed.

(** X14.  The listed layers partition the annotation set.  Each entry
    of [layerList] holds exactly the annotations filed under its key
    ([layer || 0]), in the order of the set, and is never empty; no key is
    listed twice and every annotation sits in the entry of its key. *)
Theorem layers_partition_the_store (h : list Annotation) (anns : list Ref) :
  (∀ l, l ∈ layerList h anns →
        entry_annotations l
        = filter (λ r, js_or_Z (layer_of h r) 0 = index l) anns
        ∧ entry_annotations l ≠ [])
  ∧ NoDup (index <$> layerList h anns)
  ∧ (∀ r, r ∈ anns →
          ∃ l, l ∈ layerList h anns ∧ index l = js_or_Z (layer_of h r) 0
               ∧ r ∈ entry_annotations l).
Proof.
  split_and!.
  - apply layers_partition_the_store_aux.
  - unfold layerList. rewrite <- list_fmap_compose.
    apply (NoDup_fst_map_to_list (groupedAnnotations h anns)).
  - intros r Hr.
    set (k := js_or_Z (layer_of h r) 0).
    set (g := filter (λ r', js_or_Z (layer_of h r') 0 = k) anns).
    assert (r ∈ g) as Hg by (by apply list_elem_of_filter).
    exists (mkLayerEntry k g true). split_and!; [|done|done].
    unfold layerList. apply list_elem_of_fmap. exists (k, g). split; [done|].
    apply elem_of_map_to_list. rewrite groupedAnnotations_lookup.
    cbn zeta. fold g. rewrite decide_False; [done|].
    intros Hnil. rewrite Hnil in Hg. by apply elem_of_nil in Hg.
Qed.

Lemma layers_partition_the_store_witness :
  (1%nat ∈ annotations mockEditor)
  ∧ ∃ l, l ∈ layerList (heap mockEditor) (annotations mockEditor)
         ∧ index l = js_or_Z (layer_of (heap mockEditor) 1%nat) 0
         ∧ 1%nat ∈ entry_annotations l.
Proof.
  assert (1%nat ∈ annotations mockEditor) as Hin.
  { apply (bool_decide_unpack _). vm_compute. exact I. }
  split; [exact Hin|].
  exact (proj2 (proj2 (layers_partition_the_store
                         (heap mockEditor) (annotations mockEditor)))
           1%nat Hin).
Defined.





(** ** Deleting layers, one after the other *)

Lemma handleDeleteLayer_annotations k e :
  annotations (handleDeleteLayer k e)
  = filter (λ r, layer_of (heap e) r ≠ Some k) (annotations e).
Proof. reflexivity. Qed.

Lemma handleDeleteLayer_listed k j e :
  j ∈ index <$> layerList (heap e) (annotations (handleDeleteLayer k e))
  ↔ ∃ r, r ∈ annotations e ∧ layer_of (heap e) r ≠ Some k
         ∧ js_or_Z (layer_of (heap e) r) 0 = j.
Proof.
  rewrite layerList_index, handleDeleteLayer_annotations. unfold layerKeys.
  rewrite list_elem_of_fmap. split.
  - intros (r & -> & Hr). apply list_elem_of_filter in Hr as [Hne Hr]. eauto.
  - intros (r & Hr & Hne & <-). exists r. split; [done|].
    by apply list_elem_of_filter.
Qed.

(** X16.  Deleting layers.  Deleting a layer twice is deleting it once,
    and two deletions give the same state in either order.  After the
    deletion of a layer other than 0 its key is no longer listed, and every
    other listed layer stays listed.  Layer 0 is different: the annotations
    without a [layer] field are listed under key 0 but are not matched by
    the deletion, so layer 0 stays listed exactly when there is one. *)
Theorem deleteLayer_composition (k : Z) (e : Editor) :
  let e' := handleDeleteLayer k e in
  let listed e j := j ∈ index <$> layerList (heap e) (annotations e) in
  handleDeleteLayer k e' = e'
  ∧ (∀ j, handleDeleteLayer j e' = handleDeleteLayer k (handleDeleteLayer j e))
  ∧ (k ≠ 0 → ¬ listed e' k)
  ∧ (∀ j, j ≠ k → listed e' j ↔ listed e j)
  ∧ (k = 0 →
     listed e' 0 ↔ ∃ r, r ∈ annotations e ∧ layer_of (heap e) r = None).
Proof.
  intros e' listed. subst e' listed. cbn beta.
  assert (∀ j, handleDeleteLayer j (handleDeleteLayer k e)
               = setAnnotations
                   (filter (λ r, layer_of (heap e) r ≠ Some j
                                 ∧ layer_of (heap e) r ≠ Some k)
                           (annotations e)) e) as Hboth.
  { intros j. unfold handleDeleteLayer at 1.
    replace (heap (handleDeleteLayer k e)) with (heap e) by done.
    rewrite handleDeleteLayer_annotations, list_filter_filter.
    by destruct e. }
  split_and!.
  - rewrite Hboth. unfold handleDeleteLayer. f_equal.
    apply list_filter_iff. tauto.
  - intros j. rewrite Hboth.
    unfold handleDeleteLayer at 1.
    replace (heap (handleDeleteLayer j e)) with (heap e) by done.
    rewrite handleDeleteLayer_annotations, list_filter_filter.
    destruct e; simpl. unfold setAnnotations; simpl. f_equal.
    apply list_filter_iff. tauto.
  - intros Hk Hl.
    apply (handleDeleteLayer_listed k k e) in Hl as (r & _ & Hne & Hkey).
    apply Hne. unfold js_or_Z in Hkey.
    destruct (layer_of (heap e) r) as [l|]; [|done].
    case_decide; congruence.
  - intros j Hj.
    rewrite (handleDeleteLayer_listed k j e), layerList_index.
    unfold layerKeys. rewrite list_elem_of_fmap. split.
    + intros (r & Hr & _ & <-). eauto.
    + intros (r & -> & Hr). exists r. split_and!; [done| |done].
      intros Hl. apply Hj. rewrite Hl. unfold js_or_Z. by case_decide.
  - intros ->. rewrite (handleDeleteLayer_listed 0 0 e). split.
    + intros (r & Hr & Hne & Hkey). exists r. split; [done|].
      unfold js_or_Z in Hkey. destruct (layer_of (heap e) r) as [l|]; [|done].
      case_decide; congruence.
    + intros (r & Hr & Hl). exists r. by rewrite Hl.
Qed.

Lemma deleteLayer_composition_witness :
  0 ∈ index <$> layerList (heap (handleDeleteLayer 0 afterTwoCommits.2))
                  (annotations (handleDeleteLayer 0 afterTwoCommits.2)).
Proof.
  apply (proj2 (proj2 (proj2 (proj2
           (deleteLayer_composition 0 afterTwoCommits.2)))) eq_refl).
  exists 1%nat. split; [|reflexivity].
  apply (bool_decide_unpack _). vm_compute. exact I.
Defined.

(** ** Moving a layer up and back *)

Lemma handleMoveLayer_lookup_in k direction e r a :
  NoDup (annotations e) → r ∈ annotations e →
  heap e !! r = Some a → ann_layer a = Some k →
  heap (handleMoveLayer k direction e) !! r
  = Some (moveOne direction
            (Z.of_nat (length (layerList (heap e) (annotations e)))) a).
Proof.
  intros Hnd Hr Ha Hl. rewrite handleMoveLayer_heap.
  rewrite forEach_lookup_in; [by rewrite Ha|by apply NoDup_filter|].
  apply list_elem_of_filter. split; [|done]. unfold layer_of. by rewrite Ha.
Qed.

Lemma handleMoveLayer_lookup_out k direction e r :
  ¬ (r ∈ annotations e ∧ layer_of (heap e) r = Some k) →
  heap (handleMoveLayer k direction e) !! r = heap e !! r.
Proof.
  intros Hr. rewrite handleMoveLayer_heap.
  apply forEach_lookup_notin. rewrite list_elem_of_filter. tauto.
Qed.

Lemma moveOne_up n k a :
  ann_layer a = Some k → moveOne "up" n a = set_layer (Some (Z.min (k + 1) n)) a.
Proof. intros Hl. unfold moveOne. by rewrite decide_True, Hl by done. Qed.

Lemma moveOne_down n k a :
  ann_layer a = Some k →
  moveOne "down" n a = set_layer (Some (Z.max (k - 1) 0)) a.
Proof. intros Hl. unfold moveOne. by rewrite decide_False, Hl by done. Qed.

Lemma set_layer_twice l l' a : set_layer l (set_layer l' a) = set_layer l a.
Proof. reflexivity. Qed.

(** X17.  Moving a layer up and back down.  In a store whose annotation
    set holds distinct references, let [k >= 0] be a layer below the number
    [N] of listed layers.  Moving layer [k] up and then layer [k + 1] down
    gives back the very same state when no annotation of the set was at
    layer [k + 1].  When one was, the two layers have been merged by the
    first move: the second move takes the annotations of both to layer [k],
    so those that were at [k + 1] are not where they were. *)
Theorem move_up_then_down (k : Z) (e : Editor) :
  NoDup (annotations e) →
  0 ≤ k < Z.of_nat (length (layerList (heap e) (annotations e))) →
  let e2 := handleMoveLayer (k + 1) "down" (handleMoveLayer k "up" e) in
  ((∀ r, r ∈ annotations e → layer_of (heap e) r ≠ Some (k + 1)) → e2 = e)
  ∧ (∀ r a, r ∈ annotations e → heap e !! r = Some a →
            ann_layer a = Some k ∨ ann_layer a = Some (k + 1) →
            heap e2 !! r = Some (set_layer (Some k) a))
  ∧ (∀ r, r ∈ annotations e → layer_of (heap e) r = Some (k + 1) →
          layer_of (heap e2) r = Some k ∧ heap e2 !! r ≠ heap e !! r).
Proof.
  intros Hnd Hk. set (e1 := handleMoveLayer k "up" e). intros e2.
  assert (annotations e1 = annotations e) as Hanns by done.
  assert (∀ r a, r ∈ annotations e → heap e !! r = Some a →
                 ann_layer a = Some k ∨ ann_layer a = Some (k + 1) →
                 heap e2 !! r = Some (set_layer (Some k) a)) as Hin.
  { intros r a Hr Ha Hl.
    assert (heap e1 !! r = Some (set_layer (Some (k + 1)) a)) as Ha1.
    { destruct Hl as [Hl|Hl].
      - unfold e1. rewrite (handleMoveLayer_lookup_in k "up" e r a) by done.
        rewrite (moveOne_up _ k) by done. do 3 f_equal. lia.
      - unfold e1. rewrite handleMoveLayer_lookup_out.
        + rewrite Ha. f_equal. symmetry. by apply set_layer_same.
        + intros [_ Hk']. unfold layer_of in Hk'. rewrite Ha in Hk'.
          simpl in Hk'. rewrite Hl in Hk'. injection Hk'. lia. }
    unfold e2.
    rewrite (handleMoveLayer_lookup_in (k + 1) "down" e1 r
               (set_layer (Some (k + 1)) a)) by done.
    rewrite (moveOne_down _ (k + 1)) by done.
    rewrite set_layer_twice. do 3 f_equal. lia. }
  assert (∀ r, ¬ (r ∈ annotations e
                  ∧ (layer_of (heap e) r = Some k
                     ∨ layer_of (heap e) r = Some (k + 1))) →
               heap e2 !! r = heap e !! r) as Hout.
  { intros r Hr.
    assert (heap e1 !! r = heap e !! r) as Ha1.
    { unfold e1. apply handleMoveLayer_lookup_out. tauto. }
    unfold e2. rewrite handleMoveLayer_lookup_out; [done|].
    unfold layer_of. rewrite Ha1, Hanns. fold (layer_of (heap e) r). tauto. }
  split_and!.
  - intros Hfree. unfold e2 at 1.
    rewrite (handleMoveLayer_unfold (k + 1) "down" e1). fold e2.
    assert (heap e2 = heap e) as ->.
    { apply list_eq. intros r.
      destruct (decide (r ∈ annotations e
                        ∧ (layer_of (heap e) r = Some k
                           ∨ layer_of (heap e) r = Some (k + 1))))
        as [[Hr Hl]|Hr]; [|by apply Hout].
      destruct Hl as [Hl|Hl]; [|by apply Hfree in Hl].
      unfold layer_of in Hl.
      destruct (heap e !! r) as [a|] eqn:Ha; [|done]. simpl in Hl.
      rewrite (Hin r a Hr Ha (or_introl Hl)). f_equal.
      by apply set_layer_same. }
    rewrite Hanns. unfold e1. rewrite handleMoveLayer_unfold.
    by destruct e.
  - exact Hin.
  - intros r Hr Hl. unfold layer_of in Hl.
    destruct (heap e !! r) as [a|] eqn:Ha; [|done]. simpl in Hl.
    unfold layer_of. rewrite (Hin r a Hr Ha (or_intror Hl)).
    split; [done|]. intros [= Heq].
    apply (f_equal ann_layer) in Heq. simpl in Heq. rewrite Hl in Heq.
    injection Heq. lia.
Qed.

Lemma move_up_then_down_witness :
  handleMoveLayer (2 + 1) "down" (handleMoveLayer 2 "up" mockEditor)
  = mockEditor.
Proof.
  apply (move_up_then_down 2 mockEditor).
  - apply (bool_decide_unpack _). vm_compute. exact I.
  - vm_compute. split; [discriminate|reflexivity].
  - apply Forall_forall. apply (bool_decide_unpack _). vm_compute. exact I.
Defined.

(** ** Sessions: what the layer manager shows *)

Lemma filter_all {A} (P : A → Prop) `{∀ x, Decision (P x)} (l : list A) :
  Forall P l → filter P l = l.
Proof.
  induction 1 as [|x l Hx _ IH]; [done|].
  by rewrite filter_cons_True, IH by done.
Qed.

Lemma filter_none {A} (P : A → Prop) `{∀ x, Decision (P x)} (l : list A) :
  Forall (λ x, ¬ P x) l → filter P l = [].
Proof.
  induction 1 as [|x l Hx _ IH]; [done|].
  by rewrite filter_cons_False, IH by done.
Qed.

(** With every key 0 there is one group, holding the whole set. *)
Lemma flatLayers_grouped e :
  flatLayers e →
  groupedAnnotations (heap e) (annotations e)
  = if decide (annotations e = []) then ∅ else {[0 := annotations e]}.
Proof.
  intros Hflat.
  pose proof (flatLayers_keys e (annotations e) Hflat) as Hkeys.
  unfold layerKeys in Hkeys. rewrite Forall_fmap in Hkeys.
  apply map_eq. intros k. rewrite groupedAnnotations_lookup. cbn zeta.
  destruct (decide (k = 0)) as [->|Hk].
  - rewrite filter_all by exact Hkeys.
    case_decide; [by rewrite lookup_empty|by rewrite lookup_singleton_eq].
  - rewrite filter_none.
    + rewrite decide_True by done.
      case_decide; [by rewrite lookup_empty|by rewrite lookup_singleton_ne].
    + eapply Forall_impl; [exact Hkeys|]. simpl. intros r -> Hk'. by apply Hk.
Qed.

(** X18.  What the layer manager shows in a session driven through the
    enabled controls.  With no annotation the listing is empty ("No layers
    yet").  Otherwise there is exactly one layer, of index 0, holding the
    whole annotation set in its order, and both of its move buttons are
    disabled: the layers of such a session can be deleted, not reordered. *)
Theorem guarded_session_lists_one_layer (evs : list Event)
  (s : Viewer * Editor) :
  guarded evs initialSession → run evs initialSession = Some s →
  (annotations s.2 = [] → layerList (heap s.2) (annotations s.2) = [])
  ∧ (annotations s.2 ≠ [] →
       layerList (heap s.2) (annotations s.2)
       = [mkLayerEntry 0 (annotations s.2) true])
  ∧ moveUpDisabled s.2 0 = true
  ∧ moveDownDisabled 0 = true.
Proof.
  intros Hg Hrun.
  assert (flatLayers s.2) as Hflat.
  { eapply flatLayers_run; [done..|apply wfStore_initial|constructor]. }
  pose proof (flatLayers_grouped _ Hflat) as Hgr.
  assert (annotations s.2 = [] →
          layerList (heap s.2) (annotations s.2) = []) as Hnil.
  { intros Hanns. unfold layerList. rewrite Hgr, decide_True by done.
    by rewrite map_to_list_empty. }
  assert (annotations s.2 ≠ [] →
          layerList (heap s.2) (annotations s.2)
          = [mkLayerEntry 0 (annotations s.2) true]) as Hone.
  { intros Hanns. unfold layerList. rewrite Hgr, decide_False by done.
    by rewrite map_to_list_singleton. }
  split_and!; [done|done| |done].
  unfold moveUpDisabled. apply bool_decide_eq_true.
  destruct (decide (annotations s.2 = [])) as [Hanns|Hanns].
  - rewrite (Hnil Hanns). simpl. lia.
  - rewrite (Hone Hanns). simpl. lia.
Qed.

Lemma guarded_session_lists_one_layer_witness :
  layerList (heap afterOneRectangle.2) (annotations afterOneRectangle.2)
  = [mkLayerEntry 0 (annotations afterOneRectangle.2) true].
Proof.
  apply (guarded_session_lists_one_layer oneRectangle afterOneRectangle).
  - simpl. split_and!; try done.
    apply (bool_decide_unpack _). vm_compute. exact I.
  - reflexivity.
  - vm_compute. discriminate.
Defined.

(** ** Sessions: every event is served *)

(** X19.  Every event is served.  From the initial state every sequence
    of events runs to its end: no handler ever installs [undefined] as the
    annotation set, because a redo or an undo that passes its guard finds a
    snapshot under the new cursor.  In the state reached the cursor is
    between -1 and the last snapshot, the annotation set and every snapshot
    hold distinct references to allocated objects, and [layers] is still
    empty, so that [handleAddAnnotation] stamps every annotation with
    layer 0. *)
Theorem session_is_always_served (evs : list Event) :
  ∃ s, run evs initialSession = Some s
       ∧ -1 ≤ historyIndex s.2 < Z.of_nat (length (history s.2))
       ∧ wfRefs (heap s.2) (annotations s.2)
       ∧ Forall (wfRefs (heap s.2)) (history s.2)
       ∧ layers s.2 = []
       ∧ is_Some (handleUndo s.2) ∧ is_Some (handleRedo s.2)
       ∧ ∀ now d,
           ann_layer <$> heap (handleAddAnnotation now d s.2) !! length (heap s.2)
           = Some (Some 0).
Proof.
  destruct (run_total evs initialSession wfStore_initial) as [s Hrun].
  exists s. split; [done|].
  pose proof (wfStore_run _ _ _ Hrun wfStore_initial) as Hwf.
  destruct Hwf as [Hi Ha Hh Hl].
  do 4 (split; [done|]). split; [|split].
  - unfold handleUndo. case_decide; [|done].
    destruct (lookup_lt_is_Some_2 (history s.2)
                (Z.to_nat (historyIndex s.2 - 1))) as [snap Hs]; [lia|].
    unfold js_index. rewrite decide_False by lia. by rewrite Hs.
  - unfold handleRedo. case_decide; [|done].
    destruct (lookup_lt_is_Some_2 (history s.2)
                (Z.to_nat (historyIndex s.2 + 1))) as [snap Hs]; [lia|].
    unfold js_index. rewrite decide_False by lia. by rewrite Hs.
  - intros now d. simpl. rewrite lookup_app_r, Nat.sub_diag by lia.
    simpl. by rewrite Hl.
Qed.

(** ** The signature library *)

Lemma allExt_dot x y : allExt (x +:+ "." +:+ y) = false.
Proof.
  induction x as [|c x IH]; [done|].
  change (extChar c && allExt (x +:+ "." +:+ y) = false).
  by rewrite IH, andb_false_r.
Qed.

Lemma stripExtension_cons c rest :
  stripExtension (String c rest)
  = if Ascii.eqb c "."%char && negb (String.eqb rest "") && allExt rest
    then EmptyString else String c (stripExtension rest).
Proof. reflexivity. Qed.

Lemma stripExtension_cut base ext :
  ext ≠ "" → allExt ext = true →
  stripExtension (base +:+ "." +:+ ext) = base.
Proof.
  intros Hne Hext. induction base as [|c base IH].
  - change (stripExtension (String "."%char ext) = "").
    rewrite stripExtension_cons, Hext.
    apply String.eqb_neq in Hne. by rewrite Hne.
  - change (stripExtension (String c (base +:+ "." +:+ ext)) = String c base).
    rewrite stripExtension_cons, allExt_dot, andb_false_r. by rewrite IH.
Qed.

Lemma stripExtension_cases name :
  stripExtension name = name
  ∨ ∃ base ext, name = base +:+ "." +:+ ext ∧ ext ≠ "" ∧ allExt ext = true
                ∧ stripExtension name = base.
Proof.
  induction name as [|c rest IH]; [by left|].
  rewrite stripExtension_cons.
  destruct (Ascii.eqb c "."%char) eqn:Hc; simpl.
  - apply Ascii.eqb_eq in Hc as ->.
    destruct (String.eqb rest "") eqn:Hrest; simpl.
    + destruct IH as [->|(base & ext & -> & Hne & Hext & ->)]; [by left|].
      right. exists (String "."%char base), ext. done.
    + destruct (allExt rest) eqn:Hext.
      * right. exists "", rest. split_and!; try done.
        by apply String.eqb_neq.
      * destruct IH as [->|(base & ext & -> & Hne & Hext' & ->)]; [by left|].
        right. exists (String "."%char base), ext. done.
  - destruct IH as [->|(base & ext & -> & Hne & Hext & ->)]; [by left|].
    right. exists (String c base), ext. done.
Qed.

(** X20.  The name of an uploaded signature.  The file name is cut at
    its last dot when that dot is followed, up to the end, by at least one
    character and by no slash: [base.ext] becomes [base], whatever dots
    [base] holds, and a name that starts with its only dot becomes the empty
    string.  Every other name is kept as it is, in particular a name without
    a dot and a name that ends with a dot. *)
Theorem signature_name_drops_extension :
  (∀ base ext, ext ≠ "" → allExt ext = true →
     stripExtension (base +:+ "." +:+ ext) = base)
  ∧ (∀ name, stripExtension name = name
             ∨ ∃ base ext, name = base +:+ "." +:+ ext ∧ ext ≠ ""
                           ∧ allExt ext = true ∧ stripExtension name = base)
  ∧ (∀ name, allExt name = true → stripExtension name = name)
  ∧ (∀ base, stripExtension (base +:+ ".") = base +:+ ".")
  ∧ (∀ file result now iso signatures,
       img_type file ∈ validTypes →
       sig_name <$> handleSignatureUpload (Some file) result now iso signatures
       = (sig_name <$> signatures) ++ [stripExtension (img_name file)]).
Proof.
  split_and!.
  - apply stripExtension_cut.
  - apply stripExtension_cases.
  - intros name Hext.
    destruct (stripExtension_cases name)
      as [?|(base & ext & -> & _ & _ & _)]; [done|].
    by rewrite allExt_dot in Hext.
  - intros base. induction base as [|c base IH]; [done|].
    change (stripExtension (String c (base +:+ ".")) = String c (base +:+ ".")).
    rewrite stripExtension_cons, IH.
    replace (allExt (base +:+ ".")) with false; [by rewrite andb_false_r|].
    symmetry. apply (allExt_dot base "").
  - intros file result now iso signatures Hty. unfold handleSignatureUpload.
    rewrite bool_decide_eq_true_2 by done. by rewrite fmap_app.
Qed.

Lemma signature_name_drops_extension_witness :
  stripExtension ("my.signature" +:+ "." +:+ "png") = "my.signature".
Proof.
  apply (proj1 signature_name_drops_extension "my.signature" "png").
  - discriminate.
  - reflexivity.
Defined.

(** X21.  Uploading and deleting signatures.  Without a file, or with a
    file that is not a PNG, JPEG, SVG or GIF image, the library is
    unchanged; a valid file appends one entry whose id is the clock reading.
    [handleDeleteSignature] removes every entry of the given id and keeps
    the others in their order; deleting an id the library does not hold
    changes nothing.  Deleting the entry just uploaded gives the library of
    before exactly when the clock reading was not the id of an older entry;
    two uploads within the same clock reading share their id, and deleting
    one deletes both. *)
Theorem signature_upload_and_delete :
  (∀ result now iso signatures,
     handleSignatureUpload None result now iso signatures = signatures)
  ∧ (∀ file result now iso signatures, img_type file ∉ validTypes →
       handleSignatureUpload (Some file) result now iso signatures = signatures)
  ∧ (∀ file result now iso signatures, img_type file ∈ validTypes →
       ∃ sig, handleSignatureUpload (Some file) result now iso signatures
              = signatures ++ [sig]
              ∧ sig_id sig = now ∧ sig_imageData sig = result)
  ∧ (∀ id signatures,
       Forall (λ sig, sig_id sig ≠ id) signatures →
       handleDeleteSignature id signatures = signatures)
  ∧ (∀ file result now iso signatures, img_type file ∈ validTypes →
       handleDeleteSignature now
         (handleSignatureUpload (Some file) result now iso signatures)
       = handleDeleteSignature now signatures)
  ∧ (∀ file result now iso signatures, img_type file ∈ validTypes →
       handleDeleteSignature now
         (handleSignatureUpload (Some file) result now iso signatures)
       = signatures
       ↔ Forall (λ sig, sig_id sig ≠ now) signatures)
  ∧ (∀ f1 r1 iso1 f2 r2 iso2 now signatures,
       img_type f1 ∈ validTypes → img_type f2 ∈ validTypes →
       handleDeleteSignature now
         (handleSignatureUpload (Some f2) r2 now iso2
            (handleSignatureUpload (Some f1) r1 now iso1 signatures))
       = handleDeleteSignature now signatures).
Proof.
  assert (∀ file result now iso signatures, img_type file ∈ validTypes →
            handleDeleteSignature now
              (handleSignatureUpload (Some file) result now iso signatures)
            = handleDeleteSignature now signatures) as Hdel.
  { intros file result now iso signatures Hty.
    unfold handleSignatureUpload, handleDeleteSignature.
    rewrite bool_decide_eq_true_2 by done.
    rewrite filter_app, filter_cons_False, filter_nil, app_nil_r; [done|].
    simpl. by intros H. }
  split_and!.
  - done.
  - intros file result now iso signatures Hty. unfold handleSignatureUpload.
    by rewrite bool_decide_eq_false_2.
  - intros file result now iso signatures Hty. unfold handleSignatureUpload.
    rewrite bool_decide_eq_true_2 by done. by eexists.
  - intros id signatures Hall. by apply filter_all.
  - exact Hdel.
  - intros file result now iso signatures Hty. rewrite Hdel by done.
    split.
    + intros Heq. rewrite <- Heq. unfold handleDeleteSignature.
      apply Forall_forall. intros sig Hsig.
      by apply list_elem_of_filter in Hsig as [? _].
    + intros Hall. by apply filter_all.
  - intros f1 r1 iso1 f2 r2 iso2 now signatures H1 H2.
    by rewrite !Hdel.
Qed.

Lemma signature_upload_and_delete_witness :
  handleDeleteSignature 1000
    (handleSignatureUpload (Some (mkImageFile "sign.png" "image/png"))
       "data:image/png;base64,AAAA" 1000 "2024-01-01T00:00:00.000Z" [])
  = [].
Proof.
  apply (proj1 (proj2 (proj2 (proj2 (proj2 (proj2
           signature_upload_and_delete)))))
           (mkImageFile "sign.png" "image/png")
           "data:image/png;base64,AAAA" 1000 "2024-01-01T00:00:00.000Z" []).
  - apply (bool_decide_unpack _). vm_compute. exact I.
  - constructor.
Defined.

(** X22.  Placing a signature of the library.  [handleUseSignature]
    commits one signature annotation of 200 by 100 at (100, 100) on the page
    shown, with the image of the library entry and without [layer].  When
    the annotation set holds allocated references, the drawing afterwards is
    the drawing of before followed by one deferred [drawImage] of that image,
    scaled by the zoom; an entry whose image is the empty string is stored
    but draws nothing. *)
Theorem use_signature_is_drawn (signature : Signature) (now : Z) (e : Editor) :
  wfRefs (heap e) (annotations e) →
  let e' := handleUseSignature signature now e in
  let z := zoomLevel e in
  annotations e' = annotations e ++ [length (heap e)]
  ∧ heap e' !! length (heap e)
    = Some (spread (signatureDraft (Some (sig_imageData signature))) now
              (currentPage e) None)
  ∧ js_index (history e') (historyIndex e') = Some (annotations e')
  ∧ (sig_imageData signature ≠ "" →
       project e'
       = project e
         ++ [ImageOnLoad (sig_imageData signature) (100 * z)%Q (100 * z)%Q
               (Some (200 * z)%Q) (Some (100 * z)%Q)])
  ∧ (sig_imageData signature = "" → project e' = project e).
Proof.
  intros Hwf e' z. subst e' z. unfold handleUseSignature.
  rewrite handleAddSignature_commit.
  split_and!.
  - done.
  - simpl. by rewrite lookup_app_r, Nat.sub_diag by lia.
  - unfold commitObject. apply addToHistory_cursor.
  - intros Hne. rewrite project_commit by done. f_equal.
    unfold drawAnnotation. simpl. by rewrite decide_False.
  - intros Hempty. rewrite project_commit by done.
    unfold drawAnnotation. simpl. rewrite Hempty. simpl.
    by rewrite app_nil_r.
Qed.

Lemma use_signature_is_drawn_witness :
  project (handleUseSignature
             (mkSignature 7 "sign" "data:image/png;base64,BBBB"
                "2024-01-01T00:00:00.000Z") 1002 afterOneRectangle.2)
  = project afterOneRectangle.2
    ++ [ImageOnLoad "data:image/png;base64,BBBB"
          (100 * zoomLevel afterOneRectangle.2)%Q
          (100 * zoomLevel afterOneRectangle.2)%Q
          (Some (200 * zoomLevel afterOneRectangle.2)%Q)
          (Some (100 * zoomLevel afterOneRectangle.2)%Q)].
Proof.
  apply (use_signature_is_drawn
           (mkSignature 7 "sign" "data:image/png;base64,BBBB"
              "2024-01-01T00:00:00.000Z") 1002 afterOneRectangle.2).
  - unfold wfRefs. apply (bool_decide_unpack _). vm_compute. exact I.
  - discriminate.
Defined.
